(** * GRU weather forecaster firmware (gru_forecasting.ino)

    A shallow embedding of the forecasting cycle of the sketch
    [arudino_firmware/gru_forecasting/gru_forecasting.ino]: the circular
    history buffer ([addReading]), the preparation of the model input, the
    denormalisation of the forecast, the decision engine at the end of
    [runForecast], and the [setup] / [loop] orchestration around them.

    Modelling choices.
    - A C [float] is a rational number or NaN ([float] below).  Arithmetic
      is exact: rounding, infinities and signed zeros are not modelled.
      Every comparison with NaN is false, as in IEEE 754.
    - Global variables of the sketch are the fields of [State]; the static
      local [lastReadingTime] of [loop] is one of them.
    - [int] loop counters, tensor indices and [bufferHead] are [nat]; none
      exceeds 180.  [unsigned long] is a [Z] reduced modulo 2^32 where the
      code subtracts or stores.
    - Calls to [Serial] and to the MicroTFLite engine are recorded, in
      program order, as a list of [event]s.  What the engine and the sensor
      answer is an input of the model ([Model], [Boot], [Tick]).  The ghost
      event [Call_runForecast] marks each entry of [runForecast] with the
      globals at that moment.
    - A [while(1);] halt is the outcome [None] of [setup].

    The [setup] and [runForecast] of the repository's earlier sketch are
    modelled in the module [Earlier], after the definitions of this one. *)

From Stdlib Require Import ZArith QArith Qcanon Lia.
From stdpp Require Import base list strings numbers.

Local Open Scope nat_scope.

(** ** Scalars *)

Inductive float : Type :=
  | NaN
  | Fin (q : Qc).

#[global] Instance float_inhabited : Inhabited float := populate NaN.

(** The decimal literal [n / d]. *)
Definition dec (n : Z) (d : positive) : float := Fin (Q2Qc (n # d)).

Definition fadd (x y : float) : float :=
  match x, y with Fin a, Fin b => Fin (a + b)%Qc | _, _ => NaN end.

Definition fsub (x y : float) : float :=
  match x, y with Fin a, Fin b => Fin (a - b)%Qc | _, _ => NaN end.

Definition fmul (x y : float) : float :=
  match x, y with Fin a, Fin b => Fin (a * b)%Qc | _, _ => NaN end.

(** Division by zero has no finite result; the sketch only divides by the
    non-zero constants [STDS] and [100.0F]. *)
Definition fdiv (x y : float) : float :=
  match x, y with
  | Fin a, Fin b => if decide (b = 0%Qc) then NaN else Fin (a / b)%Qc
  | _, _ => NaN
  end.

(** [x < y] and [x > y] of C. *)
Definition flt (x y : float) : bool :=
  match x, y with Fin a, Fin b => bool_decide (a < b)%Qc | _, _ => false end.

Definition fgt (x y : float) : bool := flt y x.

Definition isnan (x : float) : bool :=
  match x with NaN => true | Fin _ => false end.

(** ** Configuration *)

Definition MEANS : list float :=
  [dec 258489 10000; dec 716869 10000; dec 10143396 10000].
Definition STDS : list float :=
  [dec 18326 10000; dec 82414 10000; dec 15094 10000].

Definition HISTORY_STEPS : nat := 30.
Definition PREDICT_STEPS : nat := 60.
Definition FEATURES : nat := 3.

(** ** Global state *)

(** One row [historyBuffer[k]] of the buffer: [{t, h, p}]. *)
Record Reading : Type := mkReading {
  temperature : float;
  humidity : float;
  pressure : float
}.

Definition zeroReading : Reading := mkReading (Fin 0) (Fin 0) (Fin 0).

#[global] Instance Reading_inhabited : Inhabited Reading := populate zeroReading.

Record State : Type := mkState {
  historyBuffer : list Reading;
  bufferHead : nat;
  bufferFilled : bool;
  lastReadingTime : Z
}.

(** The globals as the C runtime initialises them: the array is zeroed. *)
Definition initial_state : State :=
  mkState (replicate HISTORY_STEPS zeroReading) 0 false 0.

(** ** addReading *)

Definition addReading (t h p : float) (s : State) : State :=
  let buf := <[bufferHead s := mkReading t h p]> (historyBuffer s) in
  let head := S (bufferHead s) in
  if HISTORY_STEPS <=? head
  then mkState buf 0 true (lastReadingTime s)
  else mkState buf head (bufferFilled s) (lastReadingTime s).

Definition insert_reading (s : State) (r : Reading) : State :=
  addReading (temperature r) (humidity r) (pressure r) s.

(** [K] calls of [addReading], in the order of the list. *)
Definition inserts (l : list Reading) (s : State) : State :=
  fold_left insert_reading l s.

(** ** Observable calls *)

Inductive event : Type :=
  | SerialPrint (s : string)                   (* Serial.print("...")  *)
  | SerialPrintln (s : string)                 (* Serial.println("...") *)
  | SerialPrintNat (n : nat)                   (* Serial.print(int) *)
  | SerialPrintFloat (x : float) (digits : nat)    (* Serial.print(x, digits) *)
  | SerialPrintlnFloat (x : float) (digits : nat)  (* Serial.println(x, digits) *)
  | ModelSetInput (x : float) (index : nat)
  | ModelRunInference (ok : bool)
  | ModelGetOutput (index : nat)
  | Call_runForecast (s : State).              (* ghost: entry of runForecast *)

(** The inference engine with its loaded model: from the input tensor, in
    index order, to failure or to the output tensor read by index. *)
Definition Model : Type := list float -> option (nat -> float).

Definition nl : string := String (Ascii.ascii_of_nat 10) "".

(** ** runForecast, part 1: the model input *)

Definition readIdx (s : State) : nat :=
  if bufferFilled s then bufferHead s else 0.

Definition bufPos (s : State) (i : nat) : nat :=
  (readIdx s + i) mod HISTORY_STEPS.

(** [(x - MEANS[f]) / STDS[f]] and [(y * STDS[f]) + MEANS[f]]. *)
Definition standardize (mean std x : float) : float := fdiv (fsub x mean) std.
Definition denormalize (mean std y : float) : float := fadd (fmul y std) mean.

Definition normalize (f : nat) (x : float) : float :=
  standardize (MEANS !!! f) (STDS !!! f) x.
Definition predict (f : nat) (y : float) : float :=
  denormalize (MEANS !!! f) (STDS !!! f) y.

(** The rows of the buffer in the order the input loop visits them. *)
Definition window (s : State) : list Reading :=
  map (fun i => historyBuffer s !!! bufPos s i) (seq 0 HISTORY_STEPS).

Definition normalize_row (r : Reading) : list float :=
  [normalize 0 (temperature r); normalize 1 (humidity r); normalize 2 (pressure r)].

(** One iteration of the input loop. *)
Definition input_step (s : State) (i : nat) : list event :=
  let row := historyBuffer s !!! bufPos s i in
  let nT := normalize 0 (temperature row) in
  let nH := normalize 1 (humidity row) in
  let nP := normalize 2 (pressure row) in
  (if i =? 0
   then [SerialPrint "Debug Input [0]: ";
         SerialPrintFloat nT 2; SerialPrint ", ";
         SerialPrintFloat nH 2; SerialPrint ", ";
         SerialPrintlnFloat nP 2]
   else [])
  ++ [ModelSetInput nT (i * FEATURES + 0);
      ModelSetInput nH (i * FEATURES + 1);
      ModelSetInput nP (i * FEATURES + 2)].

Definition prepare_input (s : State) : list event :=
  flat_map (input_step s) (seq 0 HISTORY_STEPS).

(** What [ModelSetInput] does to the engine's input tensor. *)
Definition set_input (tensor : list float) (e : event) : list float :=
  match e with
  | ModelSetInput x index => <[index := x]> tensor
  | _ => tensor
  end.

(** The input tensor once the input loop is over. *)
Definition model_input (s : State) : list float :=
  fold_left set_input (prepare_input s)
            (replicate (HISTORY_STEPS * FEATURES) NaN).

(** ** runForecast, part 3: reading the forecast *)

Record Stats : Type := mkStats {
  currentP : float;
  futureP : float;
  maxH : float;
  futureT : float
}.

Definition stats0 : Stats := mkStats (Fin 0) (Fin 0) (Fin 0) (Fin 0).

(** Denormalised forecast of feature [f] at [step]. *)
Definition forecast (out : nat -> float) (f step : nat) : float :=
  predict f (out (step * FEATURES + f)).

(** One iteration of the output loop: the statistics and the calls made. *)
Definition forecast_step (out : nat -> float)
    (acc : Stats * list event) (step : nat) : Stats * list event :=
  let baseIdx := step * FEATURES in
  let outT := out (baseIdx + 0) in
  let outH := out (baseIdx + 1) in
  let outP := out (baseIdx + 2) in
  let predT := predict 0 outT in
  let predH := predict 1 outH in
  let predP := predict 2 outP in
  let st0 := fst acc in
  let st1 := if step =? 0
             then mkStats predP (futureP st0) (maxH st0) (futureT st0)
             else st0 in
  let st2 := if step =? 59
             then mkStats (currentP st1) predP (maxH st1) predT
             else st1 in
  let st3 := if fgt predH (maxH st2)
             then mkStats (currentP st2) (futureP st2) predH (futureT st2)
             else st2 in
  (st3,
   snd acc
   ++ [ModelGetOutput (baseIdx + 0); ModelGetOutput (baseIdx + 1);
       ModelGetOutput (baseIdx + 2)]
   ++ (if (step + 1) mod 10 =? 0
       then [SerialPrint "+"; SerialPrintNat (step + 1); SerialPrint "m ";
             SerialPrintFloat predT 1; SerialPrint "  ";
             SerialPrintFloat predH 1; SerialPrint "  ";
             SerialPrintlnFloat predP 1]
       else [])).

Definition forecast_loop (out : nat -> float) : Stats * list event :=
  fold_left (forecast_step out) (seq 0 PREDICT_STEPS) (stats0, []).

(** ** runForecast, part 4: the decision engine *)

Definition pressureDelta (st : Stats) : float := fsub (futureP st) (currentP st).

Definition storm_fires (st : Stats) : bool :=
  flt (pressureDelta st) (dec (-8) 10).
Definition rain_fires (st : Stats) : bool :=
  flt (pressureDelta st) (dec (-3) 10) && fgt (maxH st) (dec 85 1).
Definition heat_fires (st : Stats) : bool := fgt (futureT st) (dec 35 1).
Definition freeze_fires (st : Stats) : bool := flt (futureT st) (dec 5 1).

Definition storm_line : string := "WARNING: Rapid Pressure Drop detected!".
Definition rain_line : string := "ALERT: Pressure falling + High Humidity.".
Definition heat_line : string := "ALERT: High Heat Index likely.".
Definition freeze_line : string := "ALERT: Freezing conditions likely.".
Definition rising_line : string := "STATUS: Pressure rising. Skies clearing.".
Definition stable_line : string := "STATUS: Weather conditions stable.".

Definition analysis (st : Stats) : list event :=
  let badWeather0 := false in
  let badWeather1 := if storm_fires st then true else badWeather0 in
  let badWeather := if rain_fires st then true else badWeather1 in
  [SerialPrintln (nl +:+ ">>> ANALYSIS <<<")]
  ++ (if storm_fires st
      then [SerialPrintln storm_line;
            SerialPrintln "Forecast: High winds or storm approaching."]
      else [])
  ++ (if rain_fires st
      then [SerialPrintln rain_line;
            SerialPrintln "Forecast: Rain likely within 60 mins."]
      else [])
  ++ (if heat_fires st then [SerialPrintln heat_line] else [])
  ++ (if freeze_fires st then [SerialPrintln freeze_line] else [])
  ++ (if negb badWeather
      then [if fgt (pressureDelta st) (dec 5 10)
            then SerialPrintln rising_line
            else SerialPrintln stable_line]
      else [])
  ++ [SerialPrintln "------------------------------"].

(** ** runForecast *)

Definition runForecast (model : Model) (s : State) : list event :=
  Call_runForecast s :: prepare_input s
  ++ match model (model_input s) with
     | None => [ModelRunInference false; SerialPrintln "Inference Failed!"]
     | Some out =>
         [ModelRunInference true;
          SerialPrintln "--- FORECAST (MicroTFLite) ---";
          SerialPrintln "Min  Temp   Hum   Pres"]
         ++ snd (forecast_loop out)
         ++ analysis (fst (forecast_loop out))
     end.

(** ** setup *)

(** What the hardware answers during [setup]. *)
Record Boot : Type := mkBoot {
  bme_begin_0x76 : bool;
  bme_begin_0x77 : bool;
  ModelInit : bool;
  boot_engine : Model
}.

Definition row (t h p : Z) : Reading :=
  mkReading (dec t 10000) (dec h 10000) (dec p 10000).

Definition prefillData : list Reading := [
  row 253950 755596 10112584; row 251133 749915 10112528;
  row 248733 758122 10112687; row 247517 761501 10112537;
  row 246300 764880 10112388; row 245800 769477 10112078;
  row 246000 770991 10112034; row 246150 773452 10112026;
  row 246425 772053 10112025; row 246650 767959 10112147;
  row 247233 768454 10111916; row 248225 765620 10112219;
  row 248200 763950 10112301; row 248000 761641 10111937;
  row 248850 757163 10112161; row 249000 757031 10112365;
  row 249500 755540 10112335; row 249400 753188 10112362;
  row 249750 755537 10112307; row 250167 756143 10111697;
  row 249850 751997 10111671; row 249475 753091 10111870;
  row 249333 755120 10111874; row 249750 753403 10111866;
  row 248933 750391 10111830; row 248400 748421 10111948;
  row 248750 751914 10111969; row 248933 753994 10111791;
  row 248933 755557 10111844; row 249050 759697 10111694 ].

(** The pre-fill loop [for (i = 0; i < 30; i++) addReading(prefillData[i]...)]. *)
Definition prefill (s : State) : State :=
  fold_left (fun s i => insert_reading s (prefillData !!! i)) (seq 0 30) s.

(** [None]: the sketch spins in [while(1);] and never reaches [loop]. *)
Definition setup (b : Boot) (s : State) : option State * list event :=
  let banner := [SerialPrintln (nl +:+ "=== Weather Forecaster (MicroTFLite) ===")] in
  if negb (bme_begin_0x76 b) && negb (bme_begin_0x77 b)
  then (None, banner ++ [SerialPrintln "ERROR: BME280 not found. Check wiring!"])
  else
    let tr1 := banner ++ [SerialPrintln "BME280 Initialized."] in
    if negb (ModelInit b)
    then (None, tr1 ++ [SerialPrintln "Model Initialization Failed!"])
    else
      let s1 := prefill s in
      (Some s1,
       tr1 ++ [SerialPrintln "Model Loaded Successfully.";
               SerialPrintln "Pre-filling buffer..."]
           ++ [SerialPrintln "Buffer Ready. Running Initial Forecast..."]
           ++ runForecast (boot_engine b) s1).

(** ** loop *)

(** What the environment answers during one pass of [loop]: the two calls
    of [millis()], the three sensor reads and the engine. *)
Record Tick : Type := mkTick {
  millis_test : Z;
  millis_store : Z;
  readTemperature : float;
  readHumidity : float;
  readPressure : float;
  engine : Model
}.

Definition ulong (z : Z) : Z := z mod 2 ^ 32.

(** [lastReadingTime = v;] *)
Definition set_lastReadingTime (v : Z) (s : State) : State :=
  mkState (historyBuffer s) (bufferHead s) (bufferFilled s) v.

(** [millis() - lastReadingTime > 60000] *)
Definition interval_elapsed (k : Tick) (s : State) : bool :=
  (60000 <? ulong (millis_test k - lastReadingTime s))%Z.

Definition loop (k : Tick) (s : State) : State * list event :=
  if interval_elapsed k s
  then
    let s1 := set_lastReadingTime (ulong (millis_store k)) s in
    let t := readTemperature k in
    let h := readHumidity k in
    let p := fdiv (readPressure k) (dec 100 1) in
    if isnan t then (s1, [])
    else
      let s2 := addReading t h p s1 in
      (s2,
       [SerialPrint (nl +:+ "Live: "); SerialPrintFloat t 2; SerialPrintln "C"]
       ++ runForecast (engine k) s2)
  else (s, []).

(** ** The program: [setup] once, then [loop] for ever *)

Fixpoint loops (ks : list Tick) (s : State) : State * list event :=
  match ks with
  | [] => (s, [])
  | k :: ks' =>
      let r1 := loop k s in
      let r2 := loops ks' (fst r1) in
      (fst r2, snd r1 ++ snd r2)
  end.

(** The state and the calls after [setup] and the passes [ks] of [loop]. *)
Definition program (b : Boot) (ks : list Tick) : option State * list event :=
  match setup b initial_state with
  | (None, tr) => (None, tr)
  | (Some s, tr) =>
      let r := loops ks s in (Some (fst r), tr ++ snd r)
  end.

(** ** Vocabulary of the statements *)

(** The array has its 30 rows and the head indexes one of them. *)
Definition buffer_wf (s : State) : Prop :=
  length (historyBuffer s) = HISTORY_STEPS /\ bufferHead s < HISTORY_STEPS.

(** [x] is a number strictly below, respectively above, the rational [c]. *)
Definition below (x : float) (c : Qc) : Prop := exists d, x = Fin d /\ (d < c)%Qc.
Definition above (x : float) (c : Qc) : Prop := exists d, x = Fin d /\ (c < d)%Qc.

(** The calls the input loop can make. *)
Definition input_event (e : event) : Prop :=
  match e with
  | SerialPrint _ | SerialPrintFloat _ _ | SerialPrintlnFloat _ _
  | ModelSetInput _ _ => True
  | _ => False
  end.

(** The calls the output loop can make. *)
Definition output_event (e : event) : Prop :=
  match e with
  | SerialPrint _ | SerialPrintNat _ | SerialPrintFloat _ _
  | SerialPrintlnFloat _ _ | ModelGetOutput _ => True
  | _ => False
  end.

(** The calls the decision engine can make. *)
Definition line_event (e : event) : Prop :=
  match e with SerialPrintln _ => True | _ => False end.

(** Whether the text line [m] is printed somewhere in a list of calls. *)
Definition line_in (m : string) (tr : list event) : bool :=
  existsb (fun e => match e with
                    | SerialPrintln x => String.eqb x m
                    | _ => false
                    end) tr.

(** The text lines of a list of calls, in order. *)
Definition printed_lines (tr : list event) : list string :=
  flat_map (fun e => match e with SerialPrintln m => [m] | _ => [] end) tr.

(** The update [if (predH > maxH) maxH = predH;] of the output loop. *)
Definition running_max (m h : float) : float := if fgt h m then h else m.

(** ** The maximum of a forecast, in the words of the specification *)

(** The larger of two floats; a NaN operand is ignored, as [fmaxf] does. *)
Definition fmax (x y : float) : float :=
  match x, y with
  | NaN, _ => y
  | _, NaN => x
  | Fin a, Fin b => if bool_decide (a < b)%Qc then y else x
  end.

Definition maximum (l : list float) : float :=
  match l with
  | [] => NaN
  | x :: l' => fold_left fmax l' x
  end.

(** [maxHumidity = max over all steps of forecast[i].humidity]. *)
Definition max_humidity (out : nat -> float) : float :=
  maximum (map (forecast out 1) (seq 0 PREDICT_STEPS)).

(** ** Sample inputs *)

(** An engine whose output tensor is all zeros: the forecast is the mean of
    each feature at every step. *)
Definition flat_output : nat -> float := fun _ => Fin 0.
Definition flat_model : Model := fun _ => Some flat_output.

(** An engine whose invocation fails. *)
Definition failing_model : Model := fun _ => None.

(** Only the last step differs from the flat forecast: temperature 36.2
    and pressure 0.1 hPa above step 0. *)
Definition heat_output : nat -> float := fun index =>
  if index =? 177 then dec 103511 18326
  else if index =? 179 then dec 1000 15094
  else Fin 0.
Definition heat_model : Model := fun _ => Some heat_output.

(** The last step is [delta] hPa above step 0, everything else is flat. *)
Definition pressure_step_output (delta : float) : nat -> float := fun index =>
  if index =? 179 then fdiv delta (STDS !!! 2) else Fin 0.
Definition pressure_step_model (delta : float) : Model :=
  fun _ => Some (pressure_step_output delta).

(** Humidity 90 % at step 0 and the last step 0.5 hPa below step 0. *)
Definition rain_output : nat -> float := fun index =>
  if index =? 1 then dec 183131 82414
  else if index =? 179 then fdiv (dec (-5) 10) (STDS !!! 2)
  else Fin 0.
Definition rain_model : Model := fun _ => Some rain_output.

(** A boot in which the sensor answers at 0x76 and the model loads. *)
Definition boot_ok : Boot := mkBoot true false true flat_model.

(** The state in which [setup] runs the first forecast. *)
Abbreviation ready_state := (prefill initial_state).

(** A pass of [loop] one minute after boot: 25.0 C, 70 %, 101600 Pa. *)
Definition tick_high_pressure : Tick :=
  mkTick 60001 60001 (dec 250 10) (dec 700 10) (dec 101600 1) flat_model.

(** The same pass with a failed humidity read. *)
Definition tick_nan_humidity : Tick :=
  mkTick 60001 60001 (dec 250 10) NaN (dec 101100 1) flat_model.

(** The same pass with a failed pressure read. *)
Definition tick_nan_pressure : Tick :=
  mkTick 60001 60001 (dec 250 10) (dec 700 10) NaN flat_model.

(** The pass [k] with the engine replaced by [model]. *)
Definition with_engine (model : Model) (k : Tick) : Tick :=
  mkTick (millis_test k) (millis_store k) (readTemperature k)
         (readHumidity k) (readPressure k) model.

(** The statistics of scenarios A, B and D of the specification: pressure
    now and in 60 minutes, maximal humidity, temperature in 60 minutes. *)
Definition scenario_A : Stats := mkStats (dec 10112 10) (dec 10095 10) (dec 60 1) (dec 20 1).
Definition scenario_B : Stats := mkStats (dec 10120 10) (dec 10115 10) (dec 90 1) (dec 20 1).
Definition scenario_D : Stats := mkStats (dec 10120 10) (dec 10126 10) (dec 60 1) (dec 20 1).

(** ** Vocabulary of the further properties *)

(** The reading a pass of [loop] hands to [addReading]. *)
Definition live_reading (k : Tick) : Reading :=
  mkReading (readTemperature k) (readHumidity k)
            (fdiv (readPressure k) (dec 100 1)).

(** Whether a pass reaches [addReading]. *)
Definition accepts (k : Tick) (s : State) : bool :=
  interval_elapsed k s && negb (isnan (readTemperature k)).

(** The readings a sequence of passes inserts, in order. *)
Fixpoint accepted (ks : list Tick) (s : State) : list Reading :=
  match ks with
  | [] => []
  | k :: ks' =>
      (if accepts k s then [live_reading k] else [])
      ++ accepted ks' (fst (loop k s))
  end.

(** The states in which [runForecast] is entered, in order. *)
Definition forecast_calls (tr : list event) : list State :=
  flat_map (fun e => match e with Call_runForecast s => [s] | _ => [] end) tr.

(** The writes to the input tensor: value and index, in order. *)
Definition set_input_calls (tr : list event) : list (float * nat) :=
  flat_map (fun e => match e with ModelSetInput x i => [(x, i)] | _ => [] end) tr.

(** The indices read from the output tensor, in order. *)
Definition get_output_calls (tr : list event) : list nat :=
  flat_map (fun e => match e with ModelGetOutput i => [i] | _ => [] end) tr.

(** The results of the invocations of the engine, in order. *)
Definition invocations (tr : list event) : list bool :=
  flat_map (fun e => match e with ModelRunInference ok => [ok] | _ => [] end) tr.

(** [historyBuffer[k][f]] for a row of the buffer. *)
Definition feature (r : Reading) (f : nat) : float :=
  match f with
  | 0 => temperature r
  | 1 => humidity r
  | _ => pressure r
  end.

(** Whether the engine answers the input of state [s] with a forecast. *)
Definition inference_ok (model : Model) (s : State) : bool :=
  match model (model_input s) with Some _ => true | None => false end.

(** An engine that succeeds with an output tensor full of NaN. *)
Definition nan_output : nat -> float := fun _ => NaN.
Definition nan_model : Model := fun _ => Some nan_output.

(** What the numeric prints show: an integer, or a float with its number
    of decimals. *)
Inductive cell : Type :=
  | Minute (n : nat)
  | Value (x : float) (digits : nat).

(** The numbers printed by a list of calls, in order. *)
Definition printed_cells (tr : list event) : list cell :=
  flat_map (fun e => match e with
                     | SerialPrintNat n => [Minute n]
                     | SerialPrintFloat x d | SerialPrintlnFloat x d => [Value x d]
                     | _ => []
                     end) tr.

(** One row of the forecast table: the minute and the three forecasts of a
    step, printed with one decimal. *)
Definition table_row (out : nat -> float) (step : nat) : list cell :=
  [Minute (step + 1); Value (forecast out 0 step) 1;
   Value (forecast out 1 step) 1; Value (forecast out 2 step) 1].

(** * The earlier sketch

    The second sketch of the repository, kept next to its README.  Its
    globals, [loop] and [addReading] are those above; [setup] and
    [runForecast] differ and are modelled here.  It has no decision engine
    and no ghost event. *)

Module Earlier.

(** [for (int step = start; step < limit; step += stride)]: the values
    the counter takes; [fuel] bounds the number of iterations. *)
Fixpoint for_steps (fuel start stride limit : nat) : list nat :=
  match fuel with
  | 0 => []
  | S fuel' =>
      if start <? limit
      then start :: for_steps fuel' (start + stride) stride limit
      else []
  end.

(** One iteration of the output loop. *)
Definition report_step (out : nat -> float) (step : nat) : list event :=
  let baseIdx := step * FEATURES in
  let outT := out (baseIdx + 0) in
  let outH := out (baseIdx + 1) in
  let outP := out (baseIdx + 2) in
  let predT := predict 0 outT in
  let predH := predict 1 outH in
  let predP := predict 2 outP in
  [ModelGetOutput (baseIdx + 0); ModelGetOutput (baseIdx + 1);
   ModelGetOutput (baseIdx + 2);
   SerialPrint "+"; SerialPrintNat (step + 1); SerialPrint "m ";
   SerialPrintFloat predT 1; SerialPrint "  ";
   SerialPrintFloat predH 1; SerialPrint "  ";
   SerialPrintlnFloat predP 1].

Definition runForecast (model : Model) (s : State) : list event :=
  prepare_input s
  ++ match model (model_input s) with
     | None => [ModelRunInference false; SerialPrintln "Inference Failed!"]
     | Some out =>
         [ModelRunInference true;
          SerialPrintln "--- FORECAST (MicroTFLite) ---";
          SerialPrintln "Min  Temp   Hum   Pres"]
         ++ flat_map (report_step out)
                     (for_steps PREDICT_STEPS 9 10 PREDICT_STEPS)
         ++ [SerialPrintln "------------------------------"]
     end.

(** Only [bme.begin(0x76)] is tried, and its failure does not halt. *)
Definition setup (b : Boot) (s : State) : option State * list event :=
  let tr1 :=
    [SerialPrintln (nl +:+ "=== Weather Forecaster (MicroTFLite) ===")]
    ++ (if negb (bme_begin_0x76 b)
        then [SerialPrintln "Standard init failed. Trying forced ID...";
              SerialPrintln "BME280 Initialized."]
        else []) in
  if negb (ModelInit b)
  then (None, tr1 ++ [SerialPrintln "Model Initialization Failed!"])
  else
    let s1 := prefill s in
    (Some s1,
     tr1 ++ [SerialPrintln "Model Loaded Successfully.";
             SerialPrintln "Pre-filling buffer..."]
         ++ [SerialPrintln "Buffer Ready. Running Initial Forecast..."]
         ++ runForecast (boot_engine b) s1).

End Earlier.

(** * Proofs *)

(** ** Sample runs of the definitions *)

Example prefill_fills_buffer :
  bufferHead ready_state = 0 /\ bufferFilled ready_state = true
  /\ historyBuffer ready_state = prefillData.
Proof. vm_compute. repeat split. Qed.

Example first_input_row :
  model_input ready_state !! 0 = Some (fdiv (dec (-4539) 10000) (dec 18326 10000)).
Proof. vm_compute. reflexivity. Qed.

Example scenario_A_lines :
  printed_lines (analysis scenario_A)
  = [nl +:+ ">>> ANALYSIS <<<"; storm_line;
     "Forecast: High winds or storm approaching.";
     "------------------------------"].
Proof. vm_compute. reflexivity. Qed.

Example scenario_B_lines :
  printed_lines (analysis scenario_B)
  = [nl +:+ ">>> ANALYSIS <<<"; rain_line;
     "Forecast: Rain likely within 60 mins.";
     "------------------------------"].
Proof. vm_compute. reflexivity. Qed.

Example scenario_D_lines :
  printed_lines (analysis scenario_D)
  = [nl +:+ ">>> ANALYSIS <<<"; rising_line; "------------------------------"].
Proof. vm_compute. reflexivity. Qed.

Example flat_forecast_lines :
  printed_lines (runForecast flat_model ready_state)
  = ["--- FORECAST (MicroTFLite) ---"; "Min  Temp   Hum   Pres";
     nl +:+ ">>> ANALYSIS <<<"; stable_line; "------------------------------"].
Proof. vm_compute. reflexivity. Qed.

Example failed_inference_lines :
  printed_lines (runForecast failing_model ready_state) = ["Inference Failed!"].
Proof. vm_compute. reflexivity. Qed.

(** ** Arithmetic on indices *)

Lemma mod_lt_steps (k : nat) : k mod HISTORY_STEPS < HISTORY_STEPS.
Proof. apply Nat.mod_upper_bound. discriminate. Qed.

Lemma mod_succ_wrap (k : nat) :
  (if HISTORY_STEPS <=? S (k mod HISTORY_STEPS) then 0 else S (k mod HISTORY_STEPS))
  = S k mod HISTORY_STEPS.
Proof.
  pose proof (Nat.div_mod_eq k HISTORY_STEPS) as E.
  pose proof (mod_lt_steps k) as B. unfold HISTORY_STEPS in *.
  destruct (Nat.leb_spec 30 (S (k mod 30))).
  - apply Nat.mod_unique with (q := S (k / 30)); lia.
  - apply Nat.mod_unique with (q := k / 30); lia.
Qed.

Lemma mod_recent_distinct (i k : nat) :
  i < k -> k < i + HISTORY_STEPS -> i mod HISTORY_STEPS <> k mod HISTORY_STEPS.
Proof.
  intros Hik Hki E.
  pose proof (Nat.div_mod_eq k HISTORY_STEPS) as Ek.
  pose proof (Nat.div_mod_eq i HISTORY_STEPS) as Ei.
  rewrite E in Ei. unfold HISTORY_STEPS in *.
  destruct (Nat.lt_total (k / 30) (i / 30)) as [|[|]]; lia.
Qed.

(** ** The history buffer *)

Lemma inserts_snoc (l : list Reading) (r : Reading) (s : State) :
  inserts (l ++ [r]) s = insert_reading (inserts l s) r.
Proof. unfold inserts. now rewrite fold_left_app. Qed.

Lemma addReading_lastReadingTime t h p s :
  lastReadingTime (addReading t h p s) = lastReadingTime s.
Proof. unfold addReading. now destruct (_ <=? _). Qed.

Lemma addReading_historyBuffer t h p s :
  historyBuffer (addReading t h p s)
  = <[bufferHead s := mkReading t h p]> (historyBuffer s).
Proof. unfold addReading. now destruct (_ <=? _). Qed.

Lemma addReading_bufferHead t h p s :
  bufferHead (addReading t h p s)
  = if HISTORY_STEPS <=? S (bufferHead s) then 0 else S (bufferHead s).
Proof. unfold addReading. now destruct (_ <=? _). Qed.

Lemma addReading_bufferFilled t h p s :
  bufferFilled (addReading t h p s)
  = if HISTORY_STEPS <=? S (bufferHead s) then true else bufferFilled s.
Proof. unfold addReading. now destruct (_ <=? _). Qed.

Lemma addReading_wf t h p s :
  buffer_wf s -> buffer_wf (addReading t h p s).
Proof.
  intros [Hlen Hhead]. split.
  - now rewrite addReading_historyBuffer, length_insert.
  - rewrite addReading_bufferHead.
    destruct (Nat.leb_spec HISTORY_STEPS (S (bufferHead s))); unfold HISTORY_STEPS in *; lia.
Qed.

Lemma addReading_keeps_filled t h p s :
  bufferFilled s = true -> bufferFilled (addReading t h p s) = true.
Proof. intros H. rewrite addReading_bufferFilled, H. now destruct (_ <=? _). Qed.

(** The contents of the buffer after any sequence of insertions: the slot
    [i mod 30] holds the [i]-th reading for each of the last 30 insertions,
    and the slots never written still hold the initial zeros. *)
Lemma inserts_slots (l : list Reading) :
  let s := inserts l initial_state in
  length (historyBuffer s) = HISTORY_STEPS
  /\ bufferHead s = length l mod HISTORY_STEPS
  /\ bufferFilled s = bool_decide (HISTORY_STEPS <= length l)
  /\ (forall i, i < length l -> length l <= i + HISTORY_STEPS ->
        historyBuffer s !! (i mod HISTORY_STEPS) = l !! i)
  /\ (forall j, length l <= j -> j < HISTORY_STEPS ->
        historyBuffer s !! j = Some zeroReading).
Proof.
  induction l as [|r l IH] using rev_ind; cbn zeta.
  - repeat split; try reflexivity.
    + intros i Hi. cbn in Hi. lia.
    + intros j _ Hj. unfold inserts, initial_state; cbn [fold_left historyBuffer].
      now apply lookup_replicate_2.
  - cbn zeta in IH. destruct IH as (Hlen & Hhead & Hfill & Hrecent & Hzero).
    rewrite inserts_snoc. unfold insert_reading.
    rewrite addReading_historyBuffer, addReading_bufferHead, addReading_bufferFilled.
    rewrite length_app, length_insert. cbn [length].
    rewrite Hhead, Hfill.
    pose proof (mod_lt_steps (length l)) as Hm.
    repeat split.
    + exact Hlen.
    + rewrite mod_succ_wrap. f_equal. lia.
    + pose proof (Nat.div_mod_eq (length l) HISTORY_STEPS) as E.
      destruct (Nat.leb_spec HISTORY_STEPS (S (length l mod HISTORY_STEPS)));
        repeat case_bool_decide; try reflexivity; unfold HISTORY_STEPS in *; lia.
    + intros i Hi Hw.
      destruct (decide (i = length l)) as [->|Hne].
      * rewrite list_lookup_insert_eq by lia.
        rewrite lookup_app_r, Nat.sub_diag by lia. now destruct r.
      * rewrite list_lookup_insert_ne
          by (apply not_eq_sym, mod_recent_distinct; lia).
        rewrite lookup_app_l by lia. apply Hrecent; lia.
    + intros j Hj Hj'.
      rewrite list_lookup_insert_ne
        by (rewrite Nat.mod_small; unfold HISTORY_STEPS in *; lia).
      apply Hzero; lia.
Qed.

(** C9.  Every [addReading], after any number [K] of earlier insertions
    into the zeroed buffer, leaves the head index in [0, 30): it is the old
    head advanced modulo 30.  Afterwards [bufferFilled] is true exactly when
    at least 30 insertions have been made in total ([K + 1 >= 30]).  The
    call always returns a state, in which the slot under the old head holds
    the new reading and every other slot, the length of the array and
    [lastReadingTime] are as before. *)
Theorem addReading_head_and_filled (l : list Reading) (t h p : float) :
  let s := inserts l initial_state in
  let s' := addReading t h p s in
  bufferHead s' < HISTORY_STEPS
  /\ bufferHead s' = (bufferHead s + 1) mod HISTORY_STEPS
  /\ bufferHead s' = (length l + 1) mod HISTORY_STEPS
  /\ (bufferFilled s' = true <-> HISTORY_STEPS <= length l + 1)
  /\ historyBuffer s' !! bufferHead s = Some (mkReading t h p)
  /\ (forall j, j <> bufferHead s -> historyBuffer s' !! j = historyBuffer s !! j)
  /\ length (historyBuffer s') = HISTORY_STEPS
  /\ lastReadingTime s' = lastReadingTime s.
Proof.
  intros s s'.
  destruct (inserts_slots l) as (Hlen & Hhead & _).
  destruct (inserts_slots (l ++ [mkReading t h p])) as (Hlen' & Hhead' & Hfill' & _).
  rewrite inserts_snoc in Hlen', Hhead', Hfill'.
  change (insert_reading (inserts l initial_state) (mkReading t h p)) with s'
    in Hlen', Hhead', Hfill'.
  fold s in Hlen, Hhead.
  rewrite length_app in Hhead', Hfill'. cbn [length] in Hhead', Hfill'.
  pose proof (mod_lt_steps (length l)) as Hm.
  repeat split.
  - rewrite Hhead'. apply mod_lt_steps.
  - rewrite Hhead', Hhead.
    now rewrite Nat.Div0.add_mod_idemp_l.
  - exact Hhead'.
  - rewrite Hfill'. intros H. now apply bool_decide_eq_true_1 in H.
  - rewrite Hfill'. intros H. now apply bool_decide_eq_true_2.
  - subst s'. rewrite addReading_historyBuffer.
    apply list_lookup_insert_eq. rewrite Hlen, Hhead. exact Hm.
  - intros j Hj. subst s'. rewrite addReading_historyBuffer.
    now apply list_lookup_insert_ne.
  - exact Hlen'.
  - apply addReading_lastReadingTime.
Qed.

(** ** The window fed to the model *)

Lemma window_lookup (s : State) (k : nat) :
  k < HISTORY_STEPS ->
  window s !! k = Some (historyBuffer s !!! bufPos s k).
Proof.
  intros Hk. unfold window.
  rewrite list_lookup_fmap, lookup_seq_lt by exact Hk. reflexivity.
Qed.

Lemma window_length (s : State) : length (window s) = HISTORY_STEPS.
Proof. unfold window. now rewrite length_map, length_seq. Qed.

Lemma normalize_rows_length (rows : list Reading) :
  length (flat_map normalize_row rows) = length rows * FEATURES.
Proof.
  induction rows as [|r rows IH]; [reflexivity|].
  cbn [flat_map]. rewrite length_app, IH. reflexivity.
Qed.

(** The tensor after the first [n] iterations of the input loop: the
    engine holds the normalised rows visited so far, and the slots of the
    remaining rows are not written yet. *)
Lemma set_input_steps (s : State) (n : nat) :
  n <= HISTORY_STEPS ->
  fold_left set_input (flat_map (input_step s) (seq 0 n))
            (replicate (HISTORY_STEPS * FEATURES) NaN)
  = flat_map normalize_row
      (map (fun i => historyBuffer s !!! bufPos s i) (seq 0 n))
    ++ replicate ((HISTORY_STEPS - n) * FEATURES) NaN.
Proof.
  induction n as [|n IH]; intros Hn; [reflexivity|].
  rewrite seq_S, flat_map_app, fold_left_app, IH by lia. clear IH.
  rewrite map_app, flat_map_app. cbn [map flat_map Nat.add].
  set (rows := map _ (seq 0 n)).
  assert (Hlen : length (flat_map normalize_row rows) = n * FEATURES).
  { rewrite normalize_rows_length. unfold rows. now rewrite length_map, length_seq. }
  replace ((HISTORY_STEPS - n) * FEATURES)
    with (S (S (S ((HISTORY_STEPS - S n) * FEATURES))))
    by (unfold HISTORY_STEPS, FEATURES in *; lia).
  cbn [replicate]. rewrite !app_nil_r.
  unfold input_step.
  rewrite fold_left_app.
  assert (Hdebug : forall tensor,
    fold_left set_input
      (if n =? 0
       then [SerialPrint "Debug Input [0]: ";
             SerialPrintFloat (normalize 0 (temperature (historyBuffer s !!! bufPos s n))) 2;
             SerialPrint ", ";
             SerialPrintFloat (normalize 1 (humidity (historyBuffer s !!! bufPos s n))) 2;
             SerialPrint ", ";
             SerialPrintlnFloat (normalize 2 (pressure (historyBuffer s !!! bufPos s n))) 2]
       else []) tensor = tensor).
  { intros tensor. now destruct (n =? 0). }
  rewrite Hdebug. cbn [fold_left set_input].
  rewrite !insert_app_r_alt by (rewrite ?length_insert, ?length_app, Hlen; lia).
  rewrite Hlen.
  replace (n * FEATURES + 0 - n * FEATURES) with 0 by lia.
  replace (n * FEATURES + 1 - n * FEATURES) with 1 by lia.
  replace (n * FEATURES + 2 - n * FEATURES) with 2 by lia.
  cbn [list_insert]. unfold normalize_row at 2.
  rewrite <- app_assoc. reflexivity.
Qed.

(** The engine is run on the normalised window, row by row. *)
Lemma model_input_window (s : State) :
  model_input s = flat_map normalize_row (window s).
Proof.
  unfold model_input, prepare_input. rewrite set_input_steps by reflexivity.
  rewrite Nat.sub_diag. cbn [Nat.mul replicate]. now rewrite app_nil_r.
Qed.

(** C3 (amended).  The model input is the window, normalised row by row.
    After [K] insertions into the zeroed buffer the window always has 30
    rows.  If [K >= 30] they are the last
    30 inserted readings, oldest first.  If [K < 30] they are the [K]
    inserted readings in insertion order followed by [30 - K] rows of
    zeros, the initial contents of the slots not written yet. *)
Theorem window_after_inserts (l : list Reading) :
  let s := inserts l initial_state in
  model_input s = flat_map normalize_row (window s)
  /\ (HISTORY_STEPS <= length l ->
     window s = drop (length l - HISTORY_STEPS) l)
  /\ (length l < HISTORY_STEPS ->
     window s = l ++ replicate (HISTORY_STEPS - length l) zeroReading).
Proof.
  intros s. split; [apply model_input_window|].
  destruct (inserts_slots l) as (Hlen & Hhead & Hfill & Hrecent & Hzero).
  fold s in Hlen, Hhead, Hfill, Hrecent, Hzero.
  split; intros HK; apply list_eq; intros k.
  - destruct (decide (k < HISTORY_STEPS)) as [Hk|Hk].
    + rewrite window_lookup by exact Hk.
      rewrite lookup_drop.
      rewrite <- Hrecent by lia.
      assert (Hpos : bufPos s k = (length l - HISTORY_STEPS + k) mod HISTORY_STEPS).
      { unfold bufPos, readIdx. rewrite Hfill, bool_decide_eq_true_2 by exact HK.
        rewrite Hhead, Nat.Div0.add_mod_idemp_l.
        replace (length l + k) with
          (length l - HISTORY_STEPS + k + 1 * HISTORY_STEPS) by lia.
        now rewrite Nat.Div0.mod_add. }
      rewrite <- Hpos. symmetry. apply list_lookup_lookup_total_lt.
      rewrite Hlen. unfold bufPos. apply mod_lt_steps.
    + rewrite !lookup_ge_None_2; [reflexivity | |].
      * rewrite length_drop. lia.
      * rewrite window_length. lia.
  - destruct (decide (k < HISTORY_STEPS)) as [Hk|Hk].
    + rewrite window_lookup by exact Hk.
      assert (Hpos : bufPos s k = k).
      { unfold bufPos, readIdx. rewrite Hfill, bool_decide_eq_false_2 by lia.
        now apply Nat.mod_small. }
      rewrite Hpos.
      rewrite <- list_lookup_lookup_total_lt by (rewrite Hlen; exact Hk).
      destruct (decide (k < length l)) as [Hkl|Hkl].
      * rewrite lookup_app_l by exact Hkl.
        rewrite <- Hrecent by lia. now rewrite Nat.mod_small.
      * rewrite lookup_app_r by lia.
        rewrite Hzero by lia. symmetry.
        apply lookup_replicate_2. lia.
    + rewrite !lookup_ge_None_2; [reflexivity | |].
      * rewrite length_app, length_replicate. lia.
      * rewrite window_length. lia.
Qed.

Lemma window_after_inserts_witness :
  window (inserts prefillData initial_state) = drop (30 - 30) prefillData
  /\ window (inserts [zeroReading; row 253950 755596 10112584] initial_state)
     = [zeroReading; row 253950 755596 10112584] ++ replicate (30 - 2) zeroReading.
Proof.
  split.
  - apply (proj1 (proj2 (window_after_inserts prefillData))). vm_compute; lia.
  - apply (proj2 (proj2 (window_after_inserts
                           [zeroReading; row 253950 755596 10112584]))).
    vm_compute; lia.
Defined.

(** C3 as stated fails for [K < 30]: after one insertion the window is not
    the one inserted reading, it has 30 rows. *)
Lemma window_partial_counterexample :
  let l := [row 253950 755596 10112584] in
  length l < HISTORY_STEPS
  /\ window (inserts l initial_state) <> l
  /\ length (window (inserts l initial_state)) = 30
  /\ window (inserts l initial_state) !! 1 = Some zeroReading.
Proof.
  cbn zeta. split; [vm_compute; lia|]. split; [|split].
  - intros E. apply (f_equal length) in E. rewrite window_length in E. discriminate E.
  - apply window_length.
  - reflexivity.
Qed.

(** ** The calls made by runForecast *)

Lemma prepare_input_kind (s : State) : Forall input_event (prepare_input s).
Proof.
  unfold prepare_input. apply Forall_flat_map, Forall_forall. intros i _.
  unfold input_step. destruct (i =? 0); repeat constructor.
Qed.

Lemma forecast_fold_kind (out : nat -> float) (steps : list nat) :
  forall acc, Forall output_event (snd acc) ->
              Forall output_event (snd (fold_left (forecast_step out) steps acc)).
Proof.
  induction steps as [|step steps IH]; intros acc Hacc; [exact Hacc|].
  cbn [fold_left]. apply IH. unfold forecast_step. cbn [snd].
  apply Forall_app. split; [exact Hacc|].
  destruct (_ =? 0); repeat constructor.
Qed.

Lemma forecast_loop_kind (out : nat -> float) :
  Forall output_event (snd (forecast_loop out)).
Proof. apply forecast_fold_kind. constructor. Qed.

Lemma analysis_kind (st : Stats) : Forall line_event (analysis st).
Proof.
  unfold analysis.
  destruct (storm_fires st), (rain_fires st), (heat_fires st),
    (freeze_fires st), (fgt (pressureDelta st) (dec 5 10));
    repeat constructor.
Qed.

(** ** The statistics gathered by the output loop *)

Lemma forecast_fold_maxH (out : nat -> float) (steps : list nat) :
  forall acc,
    maxH (fst (fold_left (forecast_step out) steps acc))
    = fold_left running_max (map (forecast out 1) steps) (maxH (fst acc)).
Proof.
  induction steps as [|step steps IH]; intros acc; [reflexivity|].
  cbn [fold_left map]. rewrite IH. f_equal.
  unfold forecast_step, running_max, forecast. cbn [fst].
  destruct (step =? 0), (step =? 59); cbn [maxH]; now destruct (fgt _ _).
Qed.

Lemma forecast_fold_currentP (out : nat -> float) (steps : list nat) :
  forall acc, Forall (fun step => step <> 0) steps ->
    currentP (fst (fold_left (forecast_step out) steps acc)) = currentP (fst acc).
Proof.
  induction steps as [|step steps IH]; intros acc Hsteps; [reflexivity|].
  inversion Hsteps as [|? ? Hstep Hrest]; subst.
  cbn [fold_left]. rewrite IH by exact Hrest.
  unfold forecast_step. cbn [fst].
  apply Nat.eqb_neq in Hstep. rewrite Hstep.
  destruct (step =? 59); cbn [currentP maxH]; now destruct (fgt _ _).
Qed.

Lemma forecast_step_first (out : nat -> float) (acc : Stats * list event) :
  currentP (fst (forecast_step out acc 0)) = forecast out 2 0.
Proof.
  unfold forecast_step, forecast. cbn [fst Nat.eqb currentP maxH].
  now destruct (fgt _ _).
Qed.

Lemma forecast_step_last (out : nat -> float) (acc : Stats * list event) :
  futureP (fst (forecast_step out acc 59)) = forecast out 2 59
  /\ futureT (fst (forecast_step out acc 59)) = forecast out 0 59.
Proof.
  unfold forecast_step, forecast. cbn [fst Nat.eqb].
  split; now destruct (fgt _ _).
Qed.

Lemma fold_left_cons_eq {A B : Type} (f : A -> B -> A) (x : B) (l : list B) (a : A) :
  fold_left f (x :: l) a = fold_left f l (f a x).
Proof. reflexivity. Qed.

Lemma fold_left_single_eq {A B : Type} (f : A -> B -> A) (x : B) (a : A) :
  fold_left f [x] a = f a x.
Proof. reflexivity. Qed.

Lemma forecast_loop_split_last (out : nat -> float) :
  forecast_loop out
  = forecast_step out (fold_left (forecast_step out) (seq 0 59) (stats0, [])) 59.
Proof.
  unfold forecast_loop.
  replace (seq 0 PREDICT_STEPS) with (seq 0 59 ++ [59]) by (symmetry; apply (seq_S 59 0)).
  now rewrite fold_left_app, fold_left_single_eq.
Qed.

Lemma forecast_loop_currentP (out : nat -> float) :
  currentP (fst (forecast_loop out)) = forecast out 2 0.
Proof.
  unfold forecast_loop.
  replace (seq 0 PREDICT_STEPS) with (0 :: seq 1 59) by reflexivity.
  rewrite fold_left_cons_eq, forecast_fold_currentP.
  - apply forecast_step_first.
  - apply Forall_forall. intros step Hin. apply in_seq in Hin. lia.
Qed.

Lemma forecast_loop_futureP (out : nat -> float) :
  futureP (fst (forecast_loop out)) = forecast out 2 59.
Proof. rewrite forecast_loop_split_last. apply forecast_step_last. Qed.

Lemma forecast_loop_futureT (out : nat -> float) :
  futureT (fst (forecast_loop out)) = forecast out 0 59.
Proof. rewrite forecast_loop_split_last. apply forecast_step_last. Qed.

Lemma forecast_loop_maxH (out : nat -> float) :
  maxH (fst (forecast_loop out))
  = fold_left running_max (map (forecast out 1) (seq 0 PREDICT_STEPS)) (Fin 0).
Proof. unfold forecast_loop. now rewrite forecast_fold_maxH. Qed.

Lemma kind_not_in {P : event -> Prop} (e : event) (tr : list event) :
  Forall P tr -> ~ P e -> ~ In e tr.
Proof. intros Hall Hne Hin. apply Hne. rewrite Forall_forall in Hall. now apply Hall. Qed.

(** The text lines of a forecast cycle: one on failure, otherwise the two
    header lines and what the decision engine prints. *)
Lemma runForecast_println (model : Model) (s : State) (m : string) :
  In (SerialPrintln m) (runForecast model s) <->
  match model (model_input s) with
  | None => m = "Inference Failed!"
  | Some out =>
      m = "--- FORECAST (MicroTFLite) ---" \/ m = "Min  Temp   Hum   Pres"
      \/ In (SerialPrintln m) (analysis (fst (forecast_loop out)))
  end.
Proof.
  unfold runForecast. cbn [In]. rewrite in_app_iff.
  pose proof (kind_not_in (SerialPrintln m) _ (prepare_input_kind s) (fun H => H)) as Hin.
  destruct (model (model_input s)) as [out|].
  - pose proof (kind_not_in (SerialPrintln m) _ (forecast_loop_kind out) (fun H => H)) as Hout.
    cbn [app In]. rewrite in_app_iff.
    split.
    + intros [H|[H|[H|[H|[H|[H|H]]]]]]; try discriminate H; try tauto.
      * injection H as <-. now left.
      * injection H as <-. right. now left.
    + intros [->|[->|H]]; tauto.
  - cbn [In]. split.
    + intros [H|[H|[H|[H|[]]]]]; try discriminate H; try tauto.
      now injection H as <-.
    + intros ->. tauto.
Qed.

Lemma line_in_spec (m : string) (tr : list event) :
  In (SerialPrintln m) tr <-> line_in m tr = true.
Proof.
  unfold line_in. rewrite existsb_exists. split.
  - intros H. exists (SerialPrintln m). split; [exact H|]. apply String.eqb_refl.
  - intros (e & Hin & He). destruct e; try discriminate He.
    apply String.eqb_eq in He. now subst.
Qed.

Ltac analysis_cases st :=
  rewrite line_in_spec; unfold analysis;
  destruct (storm_fires st), (rain_fires st), (heat_fires st),
    (freeze_fires st), (fgt (pressureDelta st) (dec 5 10));
  vm_compute; intuition discriminate.

Lemma analysis_storm (st : Stats) :
  In (SerialPrintln storm_line) (analysis st) <-> storm_fires st = true.
Proof. analysis_cases st. Qed.

Lemma analysis_rain (st : Stats) :
  In (SerialPrintln rain_line) (analysis st) <-> rain_fires st = true.
Proof. analysis_cases st. Qed.

Lemma analysis_heat (st : Stats) :
  In (SerialPrintln heat_line) (analysis st) <-> heat_fires st = true.
Proof. analysis_cases st. Qed.

Lemma analysis_freeze (st : Stats) :
  In (SerialPrintln freeze_line) (analysis st) <-> freeze_fires st = true.
Proof. analysis_cases st. Qed.

Lemma analysis_rising (st : Stats) :
  In (SerialPrintln rising_line) (analysis st) <->
  storm_fires st = false /\ rain_fires st = false
  /\ fgt (pressureDelta st) (dec 5 10) = true.
Proof. analysis_cases st. Qed.

Lemma analysis_stable (st : Stats) :
  In (SerialPrintln stable_line) (analysis st) <->
  storm_fires st = false /\ rain_fires st = false
  /\ fgt (pressureDelta st) (dec 5 10) = false.
Proof. analysis_cases st. Qed.

(** A line of the decision engine is printed exactly when the inference
    succeeded and the decision engine prints it. *)
Lemma runForecast_alert (model : Model) (s : State) (out : nat -> float) (m : string) :
  model (model_input s) = Some out ->
  m <> "--- FORECAST (MicroTFLite) ---" -> m <> "Min  Temp   Hum   Pres" ->
  In (SerialPrintln m) (runForecast model s) <->
  In (SerialPrintln m) (analysis (fst (forecast_loop out))).
Proof.
  intros Hout H2 H3. rewrite runForecast_println, Hout.
  split.
  - intros [H|[H|H]]; [contradiction|contradiction|exact H].
  - intros H. right. right. exact H.
Qed.

Lemma flt_below (x : float) (c : Qc) : flt x (Fin c) = true <-> below x c.
Proof.
  unfold below. destruct x as [|d]; cbn [flt].
  - split; [discriminate|]. now intros (d & E & _).
  - rewrite bool_decide_eq_true. split.
    + intros H. now exists d.
    + intros (d' & E & H). now injection E as ->.
Qed.

Lemma fgt_above (x : float) (c : Qc) : fgt x (Fin c) = true <-> above x c.
Proof.
  unfold above, fgt. destruct x as [|d]; cbn [flt].
  - split; [discriminate|]. now intros (d & E & _).
  - rewrite bool_decide_eq_true. split.
    + intros H. now exists d.
    + intros (d' & E & H). now injection E as ->.
Qed.

Lemma storm_fires_below (st : Stats) :
  storm_fires st = true <-> below (pressureDelta st) (Q2Qc (-8 # 10)).
Proof. unfold storm_fires, dec. apply flt_below. Qed.

Lemma rain_fires_below_above (st : Stats) :
  rain_fires st = true <->
  below (pressureDelta st) (Q2Qc (-3 # 10)) /\ above (maxH st) (Q2Qc (85 # 1)).
Proof.
  unfold rain_fires, dec. rewrite andb_true_iff, flt_below, fgt_above. reflexivity.
Qed.

(** ** Normalisation *)

Lemma Qc_pos_nonzero (q : Qc) : (0 < q)%Qc -> q <> 0%Qc.
Proof. intros H E. subst q. now apply Qclt_not_eq in H. Qed.

Lemma round_trip_Qc (mean std q : Qc) :
  std <> 0%Qc -> ((q - mean) / std * std + mean = q)%Qc.
Proof. intros H. field. exact H. Qed.

Lemma denormalize_standardize (mean std : Qc) (x : float) :
  std <> 0%Qc ->
  denormalize (Fin mean) (Fin std) (standardize (Fin mean) (Fin std) x) = x.
Proof.
  intros H. destruct x as [|q]; [reflexivity|].
  unfold denormalize, standardize, fsub, fdiv, fmul, fadd.
  destruct (decide (std = 0%Qc)) as [E|_]; [contradiction|].
  f_equal. now apply round_trip_Qc.
Qed.

Lemma predict_normalize (f : nat) (x : float) :
  f < FEATURES -> predict f (normalize f x) = x.
Proof.
  intros Hf. unfold predict, normalize.
  destruct f as [|[|[|f]]]; [| | |unfold FEATURES in Hf; lia];
    apply denormalize_standardize; apply Qc_pos_nonzero; reflexivity.
Qed.

(** C8.  With exact rational arithmetic, for every standard deviation
    [std > 0] and every mean, denormalising the standardisation of a value
    gives the value back; with the constants of the sketch this holds for
    the three features of every reading. *)
Theorem normalization_round_trip (mean std : Qc) (x : float) (r : Reading) :
  (0 < std)%Qc ->
  denormalize (Fin mean) (Fin std) (standardize (Fin mean) (Fin std) x) = x
  /\ mkReading (predict 0 (normalize 0 (temperature r)))
               (predict 1 (normalize 1 (humidity r)))
               (predict 2 (normalize 2 (pressure r))) = r.
Proof.
  intros Hstd. split.
  - apply denormalize_standardize. now apply Qc_pos_nonzero.
  - destruct r as [t h p]. cbn [temperature humidity pressure].
    now rewrite !predict_normalize by (unfold FEATURES; lia).
Qed.

Lemma normalization_round_trip_witness :
  denormalize (dec 258489 10000) (dec 18326 10000)
    (standardize (dec 258489 10000) (dec 18326 10000) (dec 253950 10000))
  = dec 253950 10000.
Proof.
  apply (normalization_round_trip
           (Q2Qc (258489 # 10000)) (Q2Qc (18326 # 10000))
           (dec 253950 10000) zeroReading).
  reflexivity.
Defined.

(** ** The decision engine *)

(** C1 (amended).  The decision engine's "now" pressure is the denormalised
    pressure of forecast step 0, so [pressureDelta] is the forecast pressure
    at step 59 minus the forecast pressure at step 0; the live reading
    enters only through the window given to the model. *)
Theorem pressureDelta_from_forecast_step0 (out : nat -> float) :
  currentP (fst (forecast_loop out)) = denormalize (MEANS !!! 2) (STDS !!! 2) (out 2)
  /\ futureP (fst (forecast_loop out)) = forecast out 2 59
  /\ pressureDelta (fst (forecast_loop out))
     = fsub (forecast out 2 59) (forecast out 2 0).
Proof.
  unfold pressureDelta.
  rewrite forecast_loop_currentP, forecast_loop_futureP. repeat split.
Qed.

(** Decides a closed equation between floats. *)
Ltac float_eq := vm_compute; f_equal; apply Qc_is_canon; reflexivity.

(** Decides whether a text line occurs in a closed list of calls. *)
Ltac line_decide := rewrite line_in_spec; vm_compute; (reflexivity || discriminate).

(** C7.  When the inference succeeds, the storm warning is printed if and
    only if [pressureDelta] is a number strictly less than -0.8: at exactly
    -0.8 it is not printed, at -0.8000001 it is. *)
Theorem storm_warning_threshold (model : Model) (s : State) (out : nat -> float) :
  model (model_input s) = Some out ->
  let delta := pressureDelta (fst (forecast_loop out)) in
  (In (SerialPrintln storm_line) (runForecast model s)
   <-> below delta (Q2Qc (-8 # 10)))
  /\ (delta = dec (-8) 10 ->
      ~ In (SerialPrintln storm_line) (runForecast model s))
  /\ (delta = dec (-8000001) 10000000 ->
      In (SerialPrintln storm_line) (runForecast model s)).
Proof.
  intros Hout delta.
  assert (Hiff : In (SerialPrintln storm_line) (runForecast model s)
                 <-> below delta (Q2Qc (-8 # 10))).
  { rewrite (runForecast_alert model s out storm_line Hout) by discriminate.
    rewrite analysis_storm. apply storm_fires_below. }
  clearbody delta.
  split; [exact Hiff|]. split; intros E; rewrite Hiff, E.
  - intros (d & Ed & Hd). injection Ed as <-. revert Hd. now vm_compute.
  - exists (Q2Qc (-8000001 # 10000000)). split; reflexivity.
Qed.

Lemma storm_warning_threshold_witness :
  ~ In (SerialPrintln storm_line)
       (runForecast (pressure_step_model (dec (-8) 10)) ready_state)
  /\ In (SerialPrintln storm_line)
       (runForecast (pressure_step_model (dec (-8000001) 10000000)) ready_state).
Proof.
  split.
  - apply (proj1 (proj2 (storm_warning_threshold
                           (pressure_step_model (dec (-8) 10)) ready_state
                           (pressure_step_output (dec (-8) 10)) eq_refl))).
    float_eq.
  - apply (proj2 (proj2 (storm_warning_threshold
                           (pressure_step_model (dec (-8000001) 10000000)) ready_state
                           (pressure_step_output (dec (-8000001) 10000000)) eq_refl))).
    float_eq.
Defined.

(** ** The humidity maximum *)

Lemma fgt_running_max (c : Qc) (m h : float) :
  isnan m = false ->
  isnan (running_max m h) = false
  /\ fgt (running_max m h) (Fin c) = fgt m (Fin c) || fgt h (Fin c).
Proof.
  destruct m as [|a]; [discriminate|]. intros _.
  unfold running_max, fgt. destruct h as [|b]; cbn [flt].
  - split; [reflexivity|]. now rewrite orb_false_r.
  - case_bool_decide as Hab; cbn [isnan flt]; (split; [reflexivity|]).
    + repeat case_bool_decide; try reflexivity.
      exfalso. eauto using Qclt_trans.
    + apply Qcnot_lt_le in Hab.
      repeat case_bool_decide; try reflexivity.
      exfalso. eauto using Qclt_le_trans.
Qed.

Lemma fgt_fold_running_max (c : Qc) (hs : list float) :
  forall m, isnan m = false ->
    fgt (fold_left running_max hs m) (Fin c)
    = fgt m (Fin c) || existsb (fun h => fgt h (Fin c)) hs.
Proof.
  induction hs as [|h hs IH]; intros m Hm; cbn [fold_left existsb].
  - now rewrite orb_false_r.
  - destruct (fgt_running_max c m h Hm) as [Hnan Hgt].
    rewrite IH, Hgt by exact Hnan. now rewrite orb_assoc.
Qed.

Lemma fgt_fmax (c : Qc) (x y : float) :
  fgt (fmax x y) (Fin c) = fgt x (Fin c) || fgt y (Fin c).
Proof.
  unfold fmax, fgt. destruct x as [|a], y as [|b]; cbn [flt];
    rewrite ?orb_false_r; try reflexivity.
  case_bool_decide as Hab; cbn [flt].
  - repeat case_bool_decide; try reflexivity.
    exfalso. eauto using Qclt_trans.
  - apply Qcnot_lt_le in Hab.
    repeat case_bool_decide; try reflexivity.
    exfalso. eauto using Qclt_le_trans.
Qed.

Lemma fgt_fold_fmax (c : Qc) (hs : list float) :
  forall x,
    fgt (fold_left fmax hs x) (Fin c)
    = fgt x (Fin c) || existsb (fun h => fgt h (Fin c)) hs.
Proof.
  induction hs as [|h hs IH]; intros x; cbn [fold_left existsb].
  - now rewrite orb_false_r.
  - now rewrite IH, fgt_fmax, orb_assoc.
Qed.

(** Against a positive threshold, the running maximum that starts at 0 and
    the maximum of the values themselves agree. *)
Lemma running_max_vs_maximum (c : Qc) (hs : list float) :
  (0 < c)%Qc ->
  fgt (fold_left running_max hs (Fin 0)) (Fin c) = fgt (maximum hs) (Fin c).
Proof.
  intros Hc. rewrite fgt_fold_running_max by reflexivity.
  assert (H0 : fgt (Fin 0) (Fin c) = false).
  { unfold fgt, flt. apply bool_decide_eq_false_2. now apply Qcle_not_lt, Qclt_le_weak. }
  rewrite H0, orb_false_l.
  destruct hs as [|h hs]; [reflexivity|].
  cbn [maximum existsb]. now rewrite fgt_fold_fmax.
Qed.

Lemma maxH_above_85 (out : nat -> float) :
  above (maxH (fst (forecast_loop out))) (Q2Qc (85 # 1))
  <-> above (max_humidity out) (Q2Qc (85 # 1)).
Proof.
  rewrite <- !fgt_above, forecast_loop_maxH. unfold max_humidity.
  rewrite running_max_vs_maximum by reflexivity. reflexivity.
Qed.

(** C6.  When the inference succeeds, the rain alert is printed if and only
    if [pressureDelta] is a number below -0.3 and the maximum of the
    denormalised humidity over the 60 forecast steps is a number above 85.
    The maximum is the one of the steps themselves: the sketch's running
    maximum starts at 0, which cannot be told apart against 85. *)
Theorem rain_likely_rule (model : Model) (s : State) (out : nat -> float) :
  model (model_input s) = Some out ->
  In (SerialPrintln rain_line) (runForecast model s)
  <-> below (pressureDelta (fst (forecast_loop out))) (Q2Qc (-3 # 10))
      /\ above (max_humidity out) (Q2Qc (85 # 1)).
Proof.
  intros Hout.
  rewrite (runForecast_alert model s out rain_line Hout) by discriminate.
  rewrite analysis_rain, rain_fires_below_above, maxH_above_85. reflexivity.
Qed.

(** ** One pass of loop *)

Lemma loop_not_due (k : Tick) (s : State) :
  interval_elapsed k s = false -> loop k s = (s, []).
Proof. intros H. unfold loop. now rewrite H. Qed.

Lemma loop_nan_temperature (k : Tick) (s : State) :
  interval_elapsed k s = true -> isnan (readTemperature k) = true ->
  loop k s = (set_lastReadingTime (ulong (millis_store k)) s, []).
Proof. intros H Ht. unfold loop. now rewrite H, Ht. Qed.

Lemma loop_cycle (k : Tick) (s : State) :
  interval_elapsed k s = true -> isnan (readTemperature k) = false ->
  let s2 := addReading (readTemperature k) (readHumidity k)
                       (fdiv (readPressure k) (dec 100 1))
                       (set_lastReadingTime (ulong (millis_store k)) s) in
  loop k s
  = (s2, [SerialPrint (nl +:+ "Live: "); SerialPrintFloat (readTemperature k) 2;
          SerialPrintln "C"] ++ runForecast (engine k) s2).
Proof. intros H Ht. unfold loop. now rewrite H, Ht. Qed.

(** The only entry of [runForecast] in its own calls is the one at its head. *)
Lemma runForecast_call (model : Model) (s s' : State) :
  In (Call_runForecast s') (runForecast model s) <-> s' = s.
Proof.
  unfold runForecast. cbn [In]. split.
  - intros [H|H]; [now injection H|]. exfalso.
    apply in_app_iff in H. destruct H as [H|H].
    + exact (kind_not_in (Call_runForecast s') _ (prepare_input_kind s) (fun F => F) H).
    + destruct (model (model_input s)) as [out|].
      * cbn [app In] in H. destruct H as [H|[H|[H|H]]]; try discriminate H.
        apply in_app_iff in H. destruct H as [H|H].
        -- exact (kind_not_in (Call_runForecast s') _ (forecast_loop_kind out) (fun F => F) H).
        -- exact (kind_not_in (Call_runForecast s') _ (analysis_kind _) (fun F => F) H).
      * cbn [In] in H. destruct H as [H|[H|[]]]; discriminate H.
  - intros ->. now left.
Qed.

Lemma runForecast_head (model : Model) (s : State) :
  In (Call_runForecast s) (runForecast model s).
Proof. now apply runForecast_call. Qed.

(** A pass of [loop] enters [runForecast] at most once, on the state it
    ends in, and only when the interval has elapsed and the temperature
    read is a number. *)
Lemma loop_call (k : Tick) (s s' : State) :
  In (Call_runForecast s') (snd (loop k s)) <->
  interval_elapsed k s = true /\ isnan (readTemperature k) = false
  /\ s' = fst (loop k s).
Proof.
  destruct (interval_elapsed k s) eqn:Hdue.
  - destruct (isnan (readTemperature k)) eqn:Ht.
    + rewrite loop_nan_temperature by assumption. cbn [snd In].
      split; [contradiction|]. now intros (_ & F & _).
    + rewrite loop_cycle by assumption. cbn [fst snd app In].
      rewrite runForecast_call. split.
      * intros [H|[H|[H|H]]]; try discriminate H. auto.
      * intros (_ & _ & ->). auto.
  - rewrite loop_not_due by assumption. cbn [snd In].
    split; [contradiction|]. now intros (F & _).
Qed.

Lemma loop_keeps_filled (k : Tick) (s : State) :
  bufferFilled s = true -> bufferFilled (fst (loop k s)) = true.
Proof.
  intros Hs. unfold loop.
  destruct (interval_elapsed k s); [|exact Hs].
  destruct (isnan (readTemperature k)); [exact Hs|].
  cbn [fst]. now apply addReading_keeps_filled.
Qed.

Lemma loop_keeps_wf (k : Tick) (s : State) :
  buffer_wf s -> buffer_wf (fst (loop k s)).
Proof.
  intros Hs. unfold loop.
  destruct (interval_elapsed k s); [|exact Hs].
  destruct (isnan (readTemperature k)); [exact Hs|].
  cbn [fst]. now apply addReading_wf.
Qed.

Lemma rain_likely_rule_witness :
  In (SerialPrintln rain_line) (runForecast rain_model ready_state).
Proof.
  apply (proj2 (rain_likely_rule rain_model ready_state rain_output eq_refl)).
  split.
  - exists (Q2Qc (-5 # 10)). split; [float_eq|reflexivity].
  - exists (Q2Qc (90 # 1)). split; [float_eq|reflexivity].
Defined.

(** C2 (amended).  When the inference succeeds, a STATUS line is printed if
    and only if neither the storm warning nor the rain alert fired: RISING
    when [pressureDelta > 0.5], STABLE otherwise.  The heat and freeze
    alerts are printed by their own rules and do not suppress STATUS. *)
Theorem status_suppressed_by_storm_or_rain_only
    (model : Model) (s : State) (out : nat -> float) :
  model (model_input s) = Some out ->
  let st := fst (forecast_loop out) in
  let tr := runForecast model s in
  (In (SerialPrintln rising_line) tr \/ In (SerialPrintln stable_line) tr
   <-> storm_fires st = false /\ rain_fires st = false)
  /\ (In (SerialPrintln rising_line) tr
      <-> storm_fires st = false /\ rain_fires st = false
          /\ fgt (pressureDelta st) (dec 5 10) = true)
  /\ (In (SerialPrintln stable_line) tr
      <-> storm_fires st = false /\ rain_fires st = false
          /\ fgt (pressureDelta st) (dec 5 10) = false)
  /\ (In (SerialPrintln heat_line) tr <-> heat_fires st = true)
  /\ (In (SerialPrintln freeze_line) tr <-> freeze_fires st = true).
Proof.
  intros Hout st tr. subst tr.
  rewrite (runForecast_alert model s out rising_line Hout) by discriminate.
  rewrite (runForecast_alert model s out stable_line Hout) by discriminate.
  rewrite (runForecast_alert model s out heat_line Hout) by discriminate.
  rewrite (runForecast_alert model s out freeze_line Hout) by discriminate.
  fold st. clearbody st.
  rewrite analysis_rising, analysis_stable, analysis_heat, analysis_freeze.
  destruct (storm_fires st), (rain_fires st), (fgt (pressureDelta st) (dec 5 10));
    intuition discriminate.
Qed.

Lemma status_suppressed_by_storm_or_rain_only_witness :
  In (SerialPrintln stable_line) (runForecast heat_model ready_state)
  /\ In (SerialPrintln heat_line) (runForecast heat_model ready_state).
Proof.
  pose proof (status_suppressed_by_storm_or_rain_only
                heat_model ready_state heat_output eq_refl) as H.
  cbn zeta in H. destruct H as (_ & _ & Hstable & Hheat & _).
  split.
  - apply Hstable. repeat split; vm_compute; reflexivity.
  - apply Hheat. vm_compute; reflexivity.
Defined.

(** C2 as stated fails: with a forecast whose last step is at 36.2 C and
    0.1 hPa above step 0, the heat alert is the only alert printed and the
    line STATUS STABLE is printed in the same cycle. *)
Lemma status_with_heat_alert_counterexample :
  let st := fst (forecast_loop heat_output) in
  let tr := runForecast heat_model ready_state in
  futureT st = dec 362 10
  /\ pressureDelta st = dec 1 10
  /\ In (SerialPrintln heat_line) tr
  /\ ~ In (SerialPrintln storm_line) tr
  /\ ~ In (SerialPrintln rain_line) tr
  /\ ~ In (SerialPrintln freeze_line) tr
  /\ In (SerialPrintln stable_line) tr.
Proof.
  cbn zeta. split; [float_eq|]. split; [float_eq|].
  repeat split; line_decide.
Qed.

(** C1 as stated fails: after boot, a live reading of 1016.0 hPa followed by
    a flat forecast of 1014.3396 hPa.  The live reading is the newest row of
    the window, the forecast at step 59 is 1.6604 hPa below it, yet
    [pressureDelta] is 0 and no storm warning is printed. *)
Lemma pressureNow_counterexample :
  let current := mkReading (dec 250 10) (dec 700 10) (dec 1016 1) in
  let r := loop tick_high_pressure ready_state in
  let st := fst (forecast_loop flat_output) in
  window (fst r) !! 29 = Some current
  /\ fsub (forecast flat_output 2 59) (pressure current) = dec (-16604) 10000
  /\ pressureDelta st = dec 0 1
  /\ pressureDelta st <> fsub (forecast flat_output 2 59) (pressure current)
  /\ In (Call_runForecast (fst r)) (snd r)
  /\ ~ In (SerialPrintln storm_line) (snd r)
  /\ In (SerialPrintln stable_line) (snd r).
Proof.
  cbn zeta. split; [|split; [|split; [|split; [|split; [|split]]]]].
  - vm_compute. do 2 f_equal; f_equal; apply Qc_is_canon; reflexivity.
  - float_eq.
  - float_eq.
  - intros E. apply (f_equal (fun x => flt x (dec (-8) 10))) in E.
    vm_compute in E. discriminate E.
  - apply (proj2 (loop_call tick_high_pressure ready_state _)).
    split; [vm_compute; reflexivity|]. split; reflexivity.
  - line_decide.
  - line_decide.
Qed.

(** ** Failures within a cycle *)

(** C5.  When the inference invocation fails, [runForecast] makes no call
    after the failed invocation but the line "Inference Failed!": no output
    is read and no line of the decision engine is printed.  An output is
    read only in a cycle whose invocation succeeded, and after it.  The
    state a pass of [loop] ends in does not depend on what the engine
    answers. *)
Theorem inference_failure_stops_cycle (model : Model) (k : Tick) (s : State) :
  (model (model_input s) = None ->
     runForecast model s
     = Call_runForecast s :: prepare_input s
       ++ [ModelRunInference false; SerialPrintln "Inference Failed!"]
     /\ (forall index, ~ In (ModelGetOutput index) (runForecast model s))
     /\ (forall m, In (SerialPrintln m) (runForecast model s) ->
                   m = "Inference Failed!"))
  /\ (forall index, In (ModelGetOutput index) (runForecast model s) ->
        exists out post,
          model (model_input s) = Some out
          /\ runForecast model s
             = (Call_runForecast s :: prepare_input s)
               ++ ModelRunInference true :: post
          /\ In (ModelGetOutput index) post
          /\ ~ In (ModelGetOutput index) (Call_runForecast s :: prepare_input s))
  /\ fst (loop (with_engine model k) s) = fst (loop k s).
Proof.
  assert (Hprep : forall index,
            ~ In (ModelGetOutput index) (Call_runForecast s :: prepare_input s)).
  { intros index [H|H]; [discriminate H|].
    exact (kind_not_in (ModelGetOutput index) _ (prepare_input_kind s) (fun F => F) H). }
  split; [|split].
  - intros Hfail. split; [|split].
    + unfold runForecast. now rewrite Hfail.
    + intros index. unfold runForecast. rewrite Hfail.
      rewrite app_comm_cons, in_app_iff.
      intros [H|[H|[H|[]]]]; try discriminate H. exact (Hprep index H).
    + intros m H. apply runForecast_println in H. now rewrite Hfail in H.
  - intros index H. unfold runForecast in *.
    destruct (model (model_input s)) as [out|].
    + rewrite app_comm_cons, in_app_iff in H.
      destruct H as [H|H]; [destruct (Hprep index H)|].
      cbn [app In] in H. destruct H as [H|H]; [discriminate H|].
      eexists out, _. split; [reflexivity|]. split; [reflexivity|].
      split; [exact H|apply Hprep].
    + rewrite app_comm_cons, in_app_iff in H.
      destruct H as [H|[H|[H|[]]]]; try discriminate H. destruct (Hprep index H).
  - unfold loop, with_engine, interval_elapsed. cbn [millis_test millis_store
      readTemperature readHumidity readPressure].
    destruct (_ <? _)%Z; [|reflexivity]. now destruct (isnan _).
Qed.

Lemma inference_failure_stops_cycle_witness :
  runForecast failing_model ready_state
  = Call_runForecast ready_state :: prepare_input ready_state
    ++ [ModelRunInference false; SerialPrintln "Inference Failed!"]
  /\ ~ In (ModelGetOutput 0) (runForecast failing_model ready_state).
Proof.
  destruct (proj1 (inference_failure_stops_cycle
                     failing_model tick_high_pressure ready_state) eq_refl)
    as (Htrace & Hread & _).
  split; [exact Htrace|exact (Hread 0)].
Defined.

(** C4, the failing input.  One minute after boot the temperature read is
    25.0 and the humidity read is NaN: the pass of [loop] writes the row
    with the NaN into slot 0 of the history buffer, over the oldest
    pre-fill row, and runs the forecast.  The same happens when only the
    pressure read is NaN. *)
Theorem nan_humidity_is_inserted :
  let r := loop tick_nan_humidity ready_state in
  let r' := loop tick_nan_pressure ready_state in
  isnan (readHumidity tick_nan_humidity) = true
  /\ historyBuffer ready_state !! 0 = Some (row 253950 755596 10112584)
  /\ historyBuffer (fst r) !! 0
     = Some (mkReading (dec 250 10) NaN (fdiv (dec 101100 1) (dec 100 1)))
  /\ historyBuffer (fst r) <> historyBuffer ready_state
  /\ In (Call_runForecast (fst r)) (snd r)
  /\ isnan (readPressure tick_nan_pressure) = true
  /\ historyBuffer (fst r') !! 0 = Some (mkReading (dec 250 10) (dec 700 10) NaN)
  /\ In (Call_runForecast (fst r')) (snd r').
Proof.
  cbn zeta.
  assert (H0 : historyBuffer (fst (loop tick_nan_humidity ready_state)) !! 0
               = Some (mkReading (dec 250 10) NaN (fdiv (dec 101100 1) (dec 100 1))))
    by (vm_compute; reflexivity).
  split; [reflexivity|]. split; [|split; [|split; [|split; [|split; [|split]]]]].
  - vm_compute; reflexivity.
  - exact H0.
  - intros E. rewrite E in H0. vm_compute in H0. discriminate H0.
  - apply (proj2 (loop_call tick_nan_humidity ready_state _)).
    split; [vm_compute; reflexivity|]. split; reflexivity.
  - reflexivity.
  - vm_compute; reflexivity.
  - apply (proj2 (loop_call tick_nan_pressure ready_state _)).
    split; [vm_compute; reflexivity|]. split; reflexivity.
Qed.

(** The path that does work: a NaN temperature skips the insertion and the
    forecast; only [lastReadingTime] changes. *)
Lemma nan_temperature_skips_cycle (k : Tick) (s : State) :
  interval_elapsed k s = true -> isnan (readTemperature k) = true ->
  historyBuffer (fst (loop k s)) = historyBuffer s
  /\ bufferHead (fst (loop k s)) = bufferHead s
  /\ bufferFilled (fst (loop k s)) = bufferFilled s
  /\ snd (loop k s) = [].
Proof. intros H Ht. rewrite loop_nan_temperature by assumption. repeat split. Qed.

(** ** The whole program *)

Lemma prefill_inserts : prefill initial_state = inserts prefillData initial_state.
Proof. vm_compute. reflexivity. Qed.

Lemma ready_state_filled : bufferFilled ready_state = true.
Proof. vm_compute. reflexivity. Qed.

Lemma some_eq {A : Type} (x y : A) : Some x = Some y -> x = y.
Proof. now intros [= ->]. Qed.

Lemma setup_state (b : Boot) (s s0 : State) :
  fst (setup b s) = Some s0 -> s0 = prefill s.
Proof.
  unfold setup. generalize (prefill s). intros s1.
  destruct (negb (bme_begin_0x76 b) && negb (bme_begin_0x77 b)); [discriminate|].
  destruct (negb (ModelInit b)); [discriminate|].
  cbn [fst]. intros E. symmetry. exact (some_eq _ _ E).
Qed.

(** [setup] enters [runForecast] at most once, on the pre-filled state. *)
Lemma setup_call (b : Boot) (s s' : State) :
  In (Call_runForecast s') (snd (setup b s)) -> s' = prefill s.
Proof.
  unfold setup. generalize (prefill s). intros s1.
  destruct (negb (bme_begin_0x76 b) && negb (bme_begin_0x77 b)).
  { cbn [snd app In]. intros [H|[H|[]]]; discriminate H. }
  destruct (negb (ModelInit b)).
  { cbn [snd app In]. intros [H|[H|[H|[]]]]; discriminate H. }
  cbn [snd app In]. intros [H|[H|[H|[H|[H|H]]]]]; try discriminate H.
  apply runForecast_call in H. exact H.
Qed.

Lemma loops_call (ks : list Tick) :
  forall s s', bufferFilled s = true ->
    In (Call_runForecast s') (snd (loops ks s)) -> bufferFilled s' = true.
Proof.
  induction ks as [|k ks IH]; intros s s' Hs; cbn [loops fst snd].
  - intros [].
  - rewrite in_app_iff. intros [H|H].
    + apply loop_call in H. destruct H as (_ & _ & ->).
      now apply loop_keeps_filled.
    + apply (IH (fst (loop k s))); [|exact H]. now apply loop_keeps_filled.
Qed.

Lemma program_call (b : Boot) (ks : list Tick) (s : State) :
  In (Call_runForecast s) (snd (program b ks)) -> bufferFilled s = true.
Proof.
  unfold program.
  pose proof (setup_state b initial_state) as Hstate.
  pose proof (setup_call b initial_state s) as Hcall.
  destruct (setup b initial_state) as [[s0|] tr]; cbn [fst snd] in *.
  - rewrite in_app_iff. intros [H|H].
    + rewrite (Hcall H). apply ready_state_filled.
    + apply (loops_call ks s0); [|exact H].
      rewrite (Hstate s0 eq_refl). apply ready_state_filled.
  - intros H. rewrite (Hcall H). apply ready_state_filled.
Qed.

(** C10.  [setup], when it does not halt, makes exactly the 30 insertions of
    the pre-fill table into the zeroed buffer, which sets [bufferFilled].
    In every run of the program, each entry of [runForecast] is in a state
    whose [bufferFilled] is true, so the input loop starts at [bufferHead]
    and never at index 0 of a buffer that is not filled. *)
Theorem forecast_only_on_filled_buffer (b : Boot) (ks : list Tick) :
  (forall s0, fst (setup b initial_state) = Some s0 ->
     s0 = inserts prefillData initial_state
     /\ length prefillData = HISTORY_STEPS
     /\ bufferFilled s0 = true)
  /\ (forall s, In (Call_runForecast s) (snd (program b ks)) ->
        bufferFilled s = true /\ readIdx s = bufferHead s).
Proof.
  split.
  - intros s0 H0. apply setup_state in H0. subst s0.
    split; [apply prefill_inserts|]. split; [reflexivity|apply ready_state_filled].
  - intros s H. apply program_call in H. split; [exact H|].
    unfold readIdx. now rewrite H.
Qed.

Lemma program_first_call (b : Boot) (ks : list Tick) :
  negb (bme_begin_0x76 b) && negb (bme_begin_0x77 b) = false ->
  ModelInit b = true ->
  In (Call_runForecast ready_state) (snd (program b ks)).
Proof.
  intros Hbme Hinit. unfold program, setup. rewrite Hbme, Hinit.
  generalize (prefill initial_state). intros s1.
  cbn [negb fst snd]. rewrite !in_app_iff.
  left. right. right. right. apply runForecast_head.
Qed.

Lemma forecast_only_on_filled_buffer_witness :
  bufferFilled ready_state = true /\ readIdx ready_state = bufferHead ready_state.
Proof.
  apply (proj2 (forecast_only_on_filled_buffer boot_ok [tick_high_pressure])).
  apply program_first_call; reflexivity.
Defined.

(** * Further properties of the sketch *)

(** ** The window as a view of the circular buffer *)

Lemma bufPos_lt (s : State) (i : nat) : bufPos s i < HISTORY_STEPS.
Proof. unfold bufPos. apply mod_lt_steps. Qed.

Lemma rotate_nat_add_mod (base offset len : nat) :
  0 < len -> rotate_nat_add base offset len = (base + offset) mod len.
Proof.
  intros Hlen. unfold rotate_nat_add.
  rewrite <- Nat2Z.inj_add, <- Nat2Z.inj_mod. apply Nat2Z.id.
Qed.

(** X1.  In every state whose array has its 30 rows, the window is the
    array rotated by the read index: every row of the buffer is fed to the
    model exactly once, none is lost or repeated. *)
Theorem window_is_rotation (s : State) :
  length (historyBuffer s) = HISTORY_STEPS ->
  window s = rotate (readIdx s) (historyBuffer s)
  /\ window s ≡ₚ historyBuffer s.
Proof.
  intros Hlen.
  assert (E : window s = rotate (readIdx s) (historyBuffer s)).
  { apply list_eq. intros k.
    destruct (decide (k < HISTORY_STEPS)) as [Hk|Hk].
    - rewrite window_lookup by exact Hk.
      rewrite lookup_rotate_r by (rewrite Hlen; exact Hk).
      rewrite Hlen, rotate_nat_add_mod by (unfold HISTORY_STEPS; lia).
      symmetry. apply list_lookup_lookup_total_lt. rewrite Hlen. apply bufPos_lt.
    - rewrite !lookup_ge_None_2; [reflexivity| |].
      + rewrite length_rotate, Hlen. lia.
      + rewrite window_length. lia. }
  split; [exact E|]. rewrite E. unfold rotate.
  rewrite Permutation_app_comm. now rewrite take_drop.
Qed.

Lemma window_is_rotation_witness :
  window (inserts [row 1 2 3] initial_state)
  ≡ₚ historyBuffer (inserts [row 1 2 3] initial_state).
Proof.
  apply (proj2 (window_is_rotation (inserts [row 1 2 3] initial_state) eq_refl)).
Defined.

Lemma succ_mod_steps (h : nat) :
  h < HISTORY_STEPS ->
  (if HISTORY_STEPS <=? S h then 0 else S h) = S h mod HISTORY_STEPS.
Proof.
  intros Hh. pose proof (mod_succ_wrap h) as E.
  rewrite (Nat.mod_small h HISTORY_STEPS) in E by exact Hh. exact E.
Qed.

Lemma mod_shift_distinct (h j : nat) :
  h < HISTORY_STEPS -> 0 < j -> j < HISTORY_STEPS ->
  (h + j) mod HISTORY_STEPS <> h.
Proof.
  intros Hh Hj Hj' E.
  apply (mod_recent_distinct h (h + j)); [lia|lia|].
  rewrite E. now apply Nat.mod_small.
Qed.

Lemma window_after_addReading (t h p : float) (s : State) :
  buffer_wf s -> bufferFilled s = true ->
  window (addReading t h p s) = drop 1 (window s) ++ [mkReading t h p].
Proof.
  intros [Hlen Hhead] Hfill.
  assert (Hfill' := addReading_keeps_filled t h p s Hfill).
  apply list_eq. intros k.
  destruct (decide (k < HISTORY_STEPS)) as [Hk|Hk].
  - rewrite window_lookup by exact Hk.
    assert (Hpos : bufPos (addReading t h p s) k
                   = (bufferHead s + S k) mod HISTORY_STEPS).
    { unfold bufPos, readIdx. rewrite Hfill', addReading_bufferHead.
      rewrite succ_mod_steps by exact Hhead.
      rewrite Nat.Div0.add_mod_idemp_l. f_equal. lia. }
    rewrite Hpos, addReading_historyBuffer.
    destruct (decide (k = HISTORY_STEPS - 1)) as [->|Hne].
    + replace (bufferHead s + S (HISTORY_STEPS - 1))
        with (bufferHead s + 1 * HISTORY_STEPS) by (unfold HISTORY_STEPS; lia).
      rewrite Nat.Div0.mod_add, Nat.mod_small by exact Hhead.
      rewrite list_lookup_total_insert_eq by (rewrite Hlen; exact Hhead).
      rewrite lookup_app_r by (rewrite length_drop, window_length; unfold HISTORY_STEPS; lia).
      rewrite length_drop, window_length, Nat.sub_diag. reflexivity.
    + rewrite list_lookup_total_insert_ne
        by (apply not_eq_sym, mod_shift_distinct; unfold HISTORY_STEPS in *; lia).
      rewrite lookup_app_l by (rewrite length_drop, window_length; unfold HISTORY_STEPS in *; lia).
      rewrite lookup_drop, window_lookup by (unfold HISTORY_STEPS in *; lia).
      unfold bufPos, readIdx. rewrite Hfill. do 2 f_equal; lia.
  - rewrite !lookup_ge_None_2; [reflexivity| |].
    + rewrite length_app, length_drop, window_length. cbn [length]. lia.
    + rewrite window_length. lia.
Qed.

(** X2.  On a filled, well-formed buffer [addReading] slides the window by
    one: the oldest row leaves, the others keep their order, and the new
    reading becomes the newest row, at position 29.  The buffer stays
    filled and well formed, so this holds again at the next insertion. *)
Theorem addReading_slides_window (t h p : float) (s : State) :
  buffer_wf s -> bufferFilled s = true ->
  let s' := addReading t h p s in
  window s' = drop 1 (window s) ++ [mkReading t h p]
  /\ window s' !! 29 = Some (mkReading t h p)
  /\ buffer_wf s' /\ bufferFilled s' = true.
Proof.
  intros Hwf Hfill s'. subst s'.
  pose proof (window_after_addReading t h p s Hwf Hfill) as E.
  split; [exact E|]. split; [|split].
  - rewrite E, lookup_app_r by (rewrite length_drop, window_length; vm_compute; lia).
    now rewrite length_drop, window_length.
  - now apply addReading_wf.
  - now apply addReading_keeps_filled.
Qed.

Lemma addReading_slides_window_witness :
  window (addReading (dec 1 1) (dec 2 1) (dec 3 1) ready_state)
  = drop 1 (window ready_state) ++ [mkReading (dec 1 1) (dec 2 1) (dec 3 1)].
Proof.
  apply (addReading_slides_window (dec 1 1) (dec 2 1) (dec 3 1) ready_state).
  - split; vm_compute; [reflexivity|lia].
  - vm_compute. reflexivity.
Defined.

(** ** The window along a run *)

Lemma window_set_lastReadingTime (v : Z) (s : State) :
  window (set_lastReadingTime v s) = window s.
Proof. reflexivity. Qed.

Lemma loop_state (k : Tick) (s : State) :
  fst (loop k s)
  = if interval_elapsed k s
    then if isnan (readTemperature k)
         then set_lastReadingTime (ulong (millis_store k)) s
         else insert_reading (set_lastReadingTime (ulong (millis_store k)) s)
                             (live_reading k)
    else s.
Proof.
  unfold loop. destruct (interval_elapsed k s); [|reflexivity].
  now destruct (isnan (readTemperature k)).
Qed.

Lemma loop_window (k : Tick) (s : State) :
  buffer_wf s -> bufferFilled s = true ->
  window (fst (loop k s))
  = if accepts k s then drop 1 (window s) ++ [live_reading k] else window s.
Proof.
  intros Hwf Hfill. rewrite loop_state. unfold accepts.
  destruct (interval_elapsed k s); [|reflexivity].
  destruct (isnan (readTemperature k)); [reflexivity|].
  cbn [andb negb]. unfold insert_reading, live_reading.
  cbn [temperature humidity pressure].
  now rewrite window_after_addReading.
Qed.

Lemma loops_cons (k : Tick) (ks : list Tick) (s : State) :
  loops (k :: ks) s
  = (fst (loops ks (fst (loop k s))), snd (loop k s) ++ snd (loops ks (fst (loop k s)))).
Proof. reflexivity. Qed.

Lemma loops_window (ks : list Tick) :
  forall s, buffer_wf s -> bufferFilled s = true ->
    window (fst (loops ks s))
    = drop (length (accepted ks s)) (window s ++ accepted ks s).
Proof.
  induction ks as [|k ks IH]; intros s Hwf Hfill.
  - cbn [loops fst accepted length]. now rewrite app_nil_r.
  - rewrite loops_cons. cbn [fst accepted].
    rewrite IH by (apply loop_keeps_wf || apply loop_keeps_filled; assumption).
    rewrite loop_window by assumption.
    rewrite length_app. set (acc := accepted ks (fst (loop k s))).
    destruct (accepts k s); cbn [length app].
    + rewrite <- drop_drop.
      change (live_reading k :: acc) with ([live_reading k] ++ acc).
      rewrite (app_assoc (window s)).
      rewrite (drop_app_le (window s ++ [live_reading k]) acc)
        by (rewrite length_app, window_length; unfold HISTORY_STEPS; lia).
      rewrite (drop_app_le (window s) [live_reading k])
        by (rewrite window_length; unfold HISTORY_STEPS; lia).
      reflexivity.
    + reflexivity.
Qed.

Lemma ready_state_wf : buffer_wf ready_state.
Proof. split; vm_compute; [reflexivity|lia]. Qed.

Lemma ready_state_window : window ready_state = prefillData.
Proof. vm_compute. reflexivity. Qed.

Lemma program_state (b : Boot) (ks : list Tick) (s : State) :
  fst (program b ks) = Some s -> s = fst (loops ks ready_state).
Proof.
  unfold program. pose proof (setup_state b initial_state) as Hstate.
  destruct (setup b initial_state) as [[s0|] tr]; cbn [fst] in *.
  - intros E. apply some_eq in E. now rewrite <- (Hstate s0 eq_refl), E.
  - discriminate.
Qed.

(** X3.  Whenever the program is past [setup], the window the next forecast
    would read is made of the last 30 rows of the pre-fill table followed
    by the live readings inserted so far, oldest first. *)
Theorem program_window (b : Boot) (ks : list Tick) (s : State) :
  fst (program b ks) = Some s ->
  let live := accepted ks ready_state in
  window s = drop (length live) (prefillData ++ live).
Proof.
  intros H live. apply program_state in H. subst s.
  rewrite loops_window by (apply ready_state_wf || apply ready_state_filled).
  now rewrite ready_state_window.
Qed.

Lemma program_window_witness :
  window (fst (loops [tick_high_pressure] ready_state))
  = drop (length (accepted [tick_high_pressure] ready_state))
         (prefillData ++ accepted [tick_high_pressure] ready_state).
Proof.
  refine (program_window boot_ok [tick_high_pressure]
            (fst (loops [tick_high_pressure] ready_state)) _).
  vm_compute. reflexivity.
Defined.

(** ** Invariants of a run *)

Lemma loops_call_inv (P : State -> Prop) :
  (forall k s, P s -> P (fst (loop k s))) ->
  forall ks s s', P s -> In (Call_runForecast s') (snd (loops ks s)) -> P s'.
Proof.
  intros Hstep. induction ks as [|k ks IH]; intros s s' Hs.
  - intros [].
  - rewrite loops_cons. cbn [snd]. rewrite in_app_iff. intros [H|H].
    + apply loop_call in H. destruct H as (_ & _ & ->). now apply Hstep.
    + apply (IH (fst (loop k s))); [now apply Hstep|exact H].
Qed.

Lemma loops_state_inv (P : State -> Prop) :
  (forall k s, P s -> P (fst (loop k s))) ->
  forall ks s, P s -> P (fst (loops ks s)).
Proof.
  intros Hstep. induction ks as [|k ks IH]; intros s Hs; [exact Hs|].
  rewrite loops_cons. cbn [fst]. apply IH. now apply Hstep.
Qed.

Lemma program_call_inv (P : State -> Prop) (b : Boot) (ks : list Tick) (s : State) :
  (forall k s, P s -> P (fst (loop k s))) -> P ready_state ->
  In (Call_runForecast s) (snd (program b ks)) \/ fst (program b ks) = Some s ->
  P s.
Proof.
  intros Hstep Hready [H|H].
  - revert H. unfold program.
    pose proof (setup_state b initial_state) as Hstate.
    pose proof (setup_call b initial_state s) as Hcall.
    destruct (setup b initial_state) as [[s0|] tr]; cbn [fst snd] in *.
    + rewrite in_app_iff. intros [H|H].
      * now rewrite (Hcall H).
      * apply (loops_call_inv P Hstep ks s0); [|exact H].
        now rewrite (Hstate s0 eq_refl).
    + intros H. now rewrite (Hcall H).
  - apply program_state in H. subst s. now apply loops_state_inv.
Qed.

(** X4.  In every run, in each state in which [runForecast] is entered and
    in the state the run has reached, the array has its 30 rows and both
    [bufferHead], the row [addReading] writes next, and every position
    [bufPos] the input loop reads are indices of the array. *)
Theorem program_indices_in_bounds (b : Boot) (ks : list Tick) (s : State) :
  In (Call_runForecast s) (snd (program b ks)) \/ fst (program b ks) = Some s ->
  length (historyBuffer s) = HISTORY_STEPS
  /\ bufferHead s < length (historyBuffer s)
  /\ forall i, bufPos s i < length (historyBuffer s).
Proof.
  intros H.
  destruct (program_call_inv buffer_wf b ks s loop_keeps_wf ready_state_wf H)
    as [Hlen Hhead].
  split; [exact Hlen|]. rewrite Hlen. split; [exact Hhead|]. intros i. apply bufPos_lt.
Qed.

Lemma program_indices_in_bounds_witness :
  length (historyBuffer ready_state) = HISTORY_STEPS
  /\ bufferHead ready_state < length (historyBuffer ready_state)
  /\ forall i, bufPos ready_state i < length (historyBuffer ready_state).
Proof.
  apply (program_indices_in_bounds boot_ok [tick_high_pressure]).
  left. apply program_first_call; reflexivity.
Defined.

(** ** How many forecasts a run makes *)

Lemma forecast_calls_app (tr1 tr2 : list event) :
  forecast_calls (tr1 ++ tr2) = forecast_calls tr1 ++ forecast_calls tr2.
Proof. apply flat_map_app. Qed.

Lemma forecast_calls_cons (e : event) (tr : list event) :
  forecast_calls (e :: tr) = forecast_calls [e] ++ forecast_calls tr.
Proof. unfold forecast_calls. cbn [flat_map]. now rewrite app_nil_r. Qed.

Lemma forecast_calls_none (P : event -> Prop) (tr : list event) :
  (forall s, ~ P (Call_runForecast s)) -> Forall P tr -> forecast_calls tr = [].
Proof.
  intros HP Hall. induction Hall as [|e tr He _ IH]; [reflexivity|].
  rewrite forecast_calls_cons, IH, app_nil_r. destruct e; try reflexivity. destruct (HP _ He).
Qed.

Lemma runForecast_forecast_calls (model : Model) (s : State) :
  forecast_calls (runForecast model s) = [s].
Proof.
  unfold runForecast.
  rewrite forecast_calls_cons. change (forecast_calls [Call_runForecast s]) with [s].
  cbn [app]. f_equal. rewrite forecast_calls_app.
  rewrite (forecast_calls_none input_event _ (fun _ H => H) (prepare_input_kind s)).
  destruct (model (model_input s)) as [out|]; [|reflexivity].
  rewrite (forecast_calls_cons (ModelRunInference true)).
  rewrite (forecast_calls_cons (SerialPrintln "--- FORECAST (MicroTFLite) ---")).
  rewrite (forecast_calls_cons (SerialPrintln "Min  Temp   Hum   Pres")).
  rewrite forecast_calls_app.
  rewrite (forecast_calls_none output_event _ (fun _ H => H) (forecast_loop_kind out)).
  rewrite (forecast_calls_none line_event _ (fun _ H => H) (analysis_kind _)).
  reflexivity.
Qed.

Lemma loop_forecast_calls (k : Tick) (s : State) :
  forecast_calls (snd (loop k s)) = if accepts k s then [fst (loop k s)] else [].
Proof.
  unfold accepts. destruct (interval_elapsed k s) eqn:Hdue.
  - destruct (isnan (readTemperature k)) eqn:Ht.
    + now rewrite loop_nan_temperature.
    + rewrite loop_cycle by assumption. cbn [fst snd andb negb].
      rewrite forecast_calls_app. apply runForecast_forecast_calls.
  - now rewrite loop_not_due.
Qed.

Lemma loops_forecast_calls (ks : list Tick) :
  forall s, length (forecast_calls (snd (loops ks s))) = length (accepted ks s).
Proof.
  induction ks as [|k ks IH]; intros s; [reflexivity|].
  rewrite loops_cons. cbn [snd accepted].
  rewrite forecast_calls_app, !length_app, IH, loop_forecast_calls.
  now destruct (accepts k s).
Qed.

Lemma setup_forecast_calls (b : Boot) (s : State) :
  forecast_calls (snd (setup b s))
  = match fst (setup b s) with Some s1 => [s1] | None => [] end.
Proof.
  unfold setup. generalize (prefill s). intros s1.
  destruct (negb (bme_begin_0x76 b) && negb (bme_begin_0x77 b)); [reflexivity|].
  destruct (negb (ModelInit b)); [reflexivity|].
  cbn [fst snd]. rewrite !forecast_calls_app, runForecast_forecast_calls.
  reflexivity.
Qed.

(** X5.  A run makes one forecast in [setup] and one more for each reading
    a pass of [loop] inserts, and none otherwise; a run that halts in
    [setup] makes none. *)
Theorem program_forecast_count (b : Boot) (ks : list Tick) :
  length (forecast_calls (snd (program b ks)))
  = match fst (program b ks) with
    | Some _ => 1 + length (accepted ks ready_state)
    | None => 0
    end.
Proof.
  unfold program.
  pose proof (setup_state b initial_state) as Hstate.
  pose proof (setup_forecast_calls b initial_state) as Hcalls.
  destruct (setup b initial_state) as [[s0|] tr]; cbn [fst snd] in *.
  - rewrite forecast_calls_app, length_app, Hcalls, loops_forecast_calls.
    now rewrite (Hstate s0 eq_refl).
  - now rewrite Hcalls.
Qed.

(** ** The 60-second interval *)

Lemma ulong_range (z : Z) : (0 <= ulong z < 2 ^ 32)%Z.
Proof. unfold ulong. apply Z.mod_pos_bound. reflexivity. Qed.

Lemma ulong_elapsed (last d : Z) :
  (0 <= d < 2 ^ 32)%Z -> ulong (ulong (last + d) - last) = d.
Proof.
  intros Hd. unfold ulong.
  rewrite Zminus_mod_idemp_l.
  replace (last + d - last)%Z with d by lia.
  now apply Z.mod_small.
Qed.

Lemma loop_lastReadingTime (k : Tick) (s : State) :
  lastReadingTime (fst (loop k s))
  = if interval_elapsed k s then ulong (millis_store k) else lastReadingTime s.
Proof.
  rewrite loop_state. destruct (interval_elapsed k s); [|reflexivity].
  destruct (isnan (readTemperature k)); [reflexivity|].
  unfold insert_reading. now rewrite addReading_lastReadingTime.
Qed.

(** X6.  The test [millis() - lastReadingTime > 60000] measures the time
    elapsed since the stored stamp even when [millis()] has wrapped around
    2^32 in between: if [millis()] now reads the stamp plus [d] modulo 2^32,
    with [d] below 2^32, the pass is due exactly when [d > 60000]. *)
Theorem interval_elapsed_wraparound (k : Tick) (s : State) (d : Z) :
  (0 <= d < 2 ^ 32)%Z ->
  millis_test k = ulong (lastReadingTime s + d) ->
  interval_elapsed k s = (60000 <? d)%Z.
Proof.
  intros Hd Hnow. unfold interval_elapsed.
  now rewrite Hnow, ulong_elapsed.
Qed.

Lemma interval_elapsed_wraparound_witness :
  interval_elapsed
    (mkTick 60000 60000 (dec 250 10) (dec 700 10) (dec 101600 1) flat_model)
    (set_lastReadingTime (2 ^ 32 - 1) ready_state)
  = (60000 <? 60001)%Z.
Proof.
  apply interval_elapsed_wraparound; [lia|]. reflexivity.
Defined.

(** X7.  After a pass that was due, whether it inserted a reading or
    skipped a NaN temperature, the interval starts again at the value
    [millis()] had when it was stored: a pass at most 60000 ms later makes
    no call and changes nothing. *)
Theorem loop_rate_limit (k1 k2 : Tick) (s : State) (d : Z) :
  interval_elapsed k1 s = true ->
  (0 <= d <= 60000)%Z ->
  millis_test k2 = ulong (ulong (millis_store k1) + d) ->
  lastReadingTime (fst (loop k1 s)) = ulong (millis_store k1)
  /\ loop k2 (fst (loop k1 s)) = (fst (loop k1 s), []).
Proof.
  intros Hdue Hd Hnow.
  assert (Hlast : lastReadingTime (fst (loop k1 s)) = ulong (millis_store k1))
    by (now rewrite loop_lastReadingTime, Hdue).
  split; [exact Hlast|]. apply loop_not_due.
  unfold interval_elapsed. rewrite Hlast, Hnow, ulong_elapsed by lia.
  apply Z.ltb_ge. lia.
Qed.

Lemma loop_rate_limit_witness :
  loop (mkTick 120001 120001 (dec 250 10) (dec 700 10) (dec 101600 1) flat_model)
       (fst (loop tick_high_pressure ready_state))
  = (fst (loop tick_high_pressure ready_state), []).
Proof.
  refine (proj2 (loop_rate_limit tick_high_pressure
                   (mkTick 120001 120001 (dec 250 10) (dec 700 10) (dec 101600 1) flat_model)
                   ready_state 60000 _ _ _)).
  - vm_compute. reflexivity.
  - lia.
  - vm_compute. reflexivity.
Defined.

(** ** The calls to the engine *)

Lemma set_input_calls_app (tr1 tr2 : list event) :
  set_input_calls (tr1 ++ tr2) = set_input_calls tr1 ++ set_input_calls tr2.
Proof. apply flat_map_app. Qed.

Lemma get_output_calls_app (tr1 tr2 : list event) :
  get_output_calls (tr1 ++ tr2) = get_output_calls tr1 ++ get_output_calls tr2.
Proof. apply flat_map_app. Qed.

Lemma invocations_app (tr1 tr2 : list event) :
  invocations (tr1 ++ tr2) = invocations tr1 ++ invocations tr2.
Proof. apply flat_map_app. Qed.

Lemma calls_none {A : Type} (f : event -> list A) (P : event -> Prop) (tr : list event) :
  (forall e, P e -> f e = []) -> Forall P tr -> flat_map f tr = [].
Proof.
  intros HP Hall. induction Hall as [|e tr He _ IH]; [reflexivity|].
  cbn [flat_map]. now rewrite IH, (HP e He).
Qed.

Lemma input_step_calls (s : State) (i : nat) :
  set_input_calls (input_step s i)
  = zip (normalize_row (historyBuffer s !!! bufPos s i))
        [i * FEATURES + 0; i * FEATURES + 1; i * FEATURES + 2].
Proof. unfold input_step. now destruct (i =? 0). Qed.

Lemma prepare_input_calls_from (s : State) (n : nat) :
  forall a,
    set_input_calls (flat_map (input_step s) (seq a n))
    = zip (flat_map normalize_row
             (map (fun i => historyBuffer s !!! bufPos s i) (seq a n)))
          (seq (a * FEATURES) (n * FEATURES)).
Proof.
  induction n as [|n IH]; intros a; [reflexivity|].
  cbn [seq flat_map map]. rewrite set_input_calls_app, input_step_calls, IH.
  replace (S n * FEATURES) with (3 + n * FEATURES) by (unfold FEATURES; lia).
  replace (S a * FEATURES) with (3 + a * FEATURES) by (unfold FEATURES; lia).
  cbn [seq Nat.add]. unfold normalize_row at 1 3. cbn [zip zip_with app].
  now rewrite !Nat.add_0_r, !Nat.add_1_r, Nat.add_succ_r, Nat.add_1_r.
Qed.

Lemma forecast_fold_outputs (out : nat -> float) (steps : list nat) :
  forall acc,
    get_output_calls (snd (fold_left (forecast_step out) steps acc))
    = get_output_calls (snd acc)
      ++ flat_map (fun step => [step * FEATURES + 0; step * FEATURES + 1;
                                step * FEATURES + 2]) steps.
Proof.
  induction steps as [|step steps IH]; intros acc.
  - cbn [fold_left flat_map]. now rewrite app_nil_r.
  - cbn [fold_left flat_map]. rewrite IH. unfold forecast_step. cbn [snd].
    rewrite !get_output_calls_app, <- !app_assoc. do 2 f_equal.
    now destruct (_ =? 0).
Qed.

Lemma get_output_calls_input (s : State) : get_output_calls (prepare_input s) = [].
Proof.
  apply (calls_none _ input_event); [|apply prepare_input_kind].
  now intros [].
Qed.

Lemma get_output_calls_analysis (st : Stats) : get_output_calls (analysis st) = [].
Proof.
  apply (calls_none _ line_event); [|apply analysis_kind].
  now intros [].
Qed.

Lemma set_input_calls_output (out : nat -> float) :
  set_input_calls (snd (forecast_loop out)) = [].
Proof.
  apply (calls_none _ output_event); [|apply forecast_loop_kind].
  now intros [].
Qed.

Lemma set_input_calls_analysis (st : Stats) : set_input_calls (analysis st) = [].
Proof.
  apply (calls_none _ line_event); [|apply analysis_kind].
  now intros [].
Qed.

Lemma invocations_input (s : State) : invocations (prepare_input s) = [].
Proof.
  apply (calls_none _ input_event); [|apply prepare_input_kind].
  now intros [].
Qed.

Lemma invocations_output (out : nat -> float) :
  invocations (snd (forecast_loop out)) = [].
Proof.
  apply (calls_none _ output_event); [|apply forecast_loop_kind].
  now intros [].
Qed.

Lemma invocations_analysis (st : Stats) : invocations (analysis st) = [].
Proof.
  apply (calls_none _ line_event); [|apply analysis_kind].
  now intros [].
Qed.

Lemma runForecast_app (model : Model) (s : State) :
  runForecast model s
  = ([Call_runForecast s] ++ prepare_input s)
    ++ match model (model_input s) with
       | None => [ModelRunInference false; SerialPrintln "Inference Failed!"]
       | Some out =>
           [ModelRunInference true;
            SerialPrintln "--- FORECAST (MicroTFLite) ---";
            SerialPrintln "Min  Temp   Hum   Pres"]
           ++ snd (forecast_loop out) ++ analysis (fst (forecast_loop out))
       end.
Proof. reflexivity. Qed.

Lemma prepare_input_calls (s : State) :
  set_input_calls (prepare_input s)
  = zip (model_input s) (seq 0 (HISTORY_STEPS * FEATURES)).
Proof.
  unfold prepare_input. rewrite prepare_input_calls_from.
  now rewrite model_input_window.
Qed.

Lemma model_input_length (s : State) :
  length (model_input s) = HISTORY_STEPS * FEATURES.
Proof. now rewrite model_input_window, normalize_rows_length, window_length. Qed.

Lemma forecast_loop_outputs (out : nat -> float) :
  get_output_calls (snd (forecast_loop out)) = seq 0 (PREDICT_STEPS * FEATURES).
Proof.
  unfold forecast_loop. rewrite forecast_fold_outputs.
  vm_compute. reflexivity.
Qed.

Lemma runForecast_set_input_calls (model : Model) (s : State) :
  set_input_calls (runForecast model s)
  = zip (model_input s) (seq 0 (HISTORY_STEPS * FEATURES)).
Proof.
  rewrite runForecast_app, !set_input_calls_app, prepare_input_calls.
  destruct (model (model_input s)) as [out|].
  - rewrite !set_input_calls_app, set_input_calls_output, set_input_calls_analysis.
    cbn [set_input_calls flat_map app]. now rewrite app_nil_r.
  - cbn [set_input_calls flat_map app]. now rewrite app_nil_r.
Qed.

Lemma runForecast_invocations (model : Model) (s : State) :
  invocations (runForecast model s) = [inference_ok model s].
Proof.
  rewrite runForecast_app, !invocations_app, invocations_input.
  unfold inference_ok. destruct (model (model_input s)) as [out|].
  - rewrite !invocations_app, invocations_output, invocations_analysis.
    reflexivity.
  - reflexivity.
Qed.

Lemma runForecast_get_output_calls (model : Model) (s : State) :
  get_output_calls (runForecast model s)
  = if inference_ok model s then seq 0 (PREDICT_STEPS * FEATURES) else [].
Proof.
  rewrite runForecast_app, !get_output_calls_app, get_output_calls_input.
  unfold inference_ok. destruct (model (model_input s)) as [out|].
  - rewrite !get_output_calls_app, forecast_loop_outputs, get_output_calls_analysis.
    cbn [get_output_calls flat_map app]. now rewrite app_nil_r.
  - reflexivity.
Qed.

Lemma runForecast_phases (model : Model) (s : State) :
  exists post,
    runForecast model s
    = (Call_runForecast s :: prepare_input s)
      ++ ModelRunInference (inference_ok model s) :: post
    /\ set_input_calls post = [] /\ invocations post = [].
Proof.
  rewrite runForecast_app. unfold inference_ok.
  destruct (model (model_input s)) as [out|].
  - exists ([SerialPrintln "--- FORECAST (MicroTFLite) ---";
             SerialPrintln "Min  Temp   Hum   Pres"]
            ++ snd (forecast_loop out) ++ analysis (fst (forecast_loop out))).
    split; [reflexivity|].
    rewrite !set_input_calls_app, !invocations_app.
    rewrite set_input_calls_output, set_input_calls_analysis,
      invocations_output, invocations_analysis.
    split; reflexivity.
  - eexists. split; [reflexivity|]. split; reflexivity.
Qed.

(** X8.  Every forecast cycle talks to the engine in the same order: it
    writes the 90 input slots once each, in index order 0..89, with the
    normalised window; then it invokes the engine exactly once; and only
    if that succeeded it reads the 180 output slots once each, in index
    order 0..179.  No input is written after the invocation and no output
    is read before it. *)
Theorem runForecast_engine_protocol (model : Model) (s : State) :
  length (model_input s) = 90
  /\ set_input_calls (runForecast model s) = zip (model_input s) (seq 0 90)
  /\ invocations (runForecast model s) = [inference_ok model s]
  /\ get_output_calls (runForecast model s)
     = (if inference_ok model s then seq 0 180 else [])
  /\ exists pre post,
       runForecast model s = pre ++ ModelRunInference (inference_ok model s) :: post
       /\ set_input_calls post = [] /\ get_output_calls pre = []
       /\ invocations pre = [] /\ invocations post = [].
Proof.
  split; [apply model_input_length|].
  split; [apply runForecast_set_input_calls|].
  split; [apply runForecast_invocations|].
  split; [apply runForecast_get_output_calls|].
  destruct (runForecast_phases model s) as (post & E & Hin & Hinv).
  exists (Call_runForecast s :: prepare_input s), post.
  split; [exact E|]. split; [exact Hin|].
  split; [apply (get_output_calls_input s)|].
  split; [apply (invocations_input s)|exact Hinv].
Qed.

(** ** The layout of the input tensor *)

Lemma normalize_rows_lookup (rows : list Reading) :
  forall i f, f < FEATURES ->
    flat_map normalize_row rows !! (i * FEATURES + f)
    = (fun r => normalize f (feature r f)) <$> rows !! i.
Proof.
  induction rows as [|r rows IH]; intros i f Hf.
  - now rewrite !lookup_nil.
  - destruct i as [|i].
    + destruct f as [|[|[|f]]]; [reflexivity..|unfold FEATURES in Hf; lia].
    + cbn [flat_map]. rewrite lookup_app_r by (cbn; unfold FEATURES; lia).
      replace (S i * FEATURES + f - length (normalize_row r)) with (i * FEATURES + f)
        by (cbn; unfold FEATURES; lia).
      now rewrite IH.
Qed.

Lemma isnan_normalize (f : nat) (x : float) :
  f < FEATURES -> isnan (normalize f x) = isnan x.
Proof.
  intros Hf. destruct x as [|q]; [reflexivity|].
  pose proof (predict_normalize f (Fin q) Hf) as E.
  destruct (normalize f (Fin q)); [discriminate E|reflexivity].
Qed.

(** X9.  The input tensor is row-major: slot [i * 3 + f] holds feature [f]
    of the row the input loop visits at step [i], minus [MEANS[f]] and
    divided by [STDS[f]].  The slot is NaN exactly when that stored value
    is NaN, so a NaN in the history buffer reaches the engine. *)
Theorem model_input_layout (s : State) (i f : nat) :
  i < HISTORY_STEPS -> f < FEATURES ->
  let x := feature (historyBuffer s !!! bufPos s i) f in
  model_input s !! (i * FEATURES + f)
  = Some (fdiv (fsub x (MEANS !!! f)) (STDS !!! f))
  /\ (model_input s !!! (i * FEATURES + f) = NaN <-> x = NaN).
Proof.
  intros Hi Hf x.
  assert (E : model_input s !! (i * FEATURES + f) = Some (normalize f x)).
  { rewrite model_input_window, normalize_rows_lookup by exact Hf.
    now rewrite window_lookup. }
  split; [exact E|].
  rewrite (list_lookup_total_correct _ _ _ E).
  pose proof (isnan_normalize f x Hf) as Hnan.
  destruct (normalize f x), x; cbn [isnan] in Hnan; split; intros H;
    try reflexivity; discriminate.
Qed.

Lemma model_input_layout_witness :
  model_input (fst (loop tick_nan_humidity ready_state)) !!! (29 * FEATURES + 1) = NaN.
Proof.
  apply (proj2 (model_input_layout
                  (fst (loop tick_nan_humidity ready_state)) 29 1
                  ltac:(vm_compute; lia) ltac:(vm_compute; lia))).
  vm_compute. reflexivity.
Defined.

(** ** Normalisation, the other way round *)

(** X10.  For every non-zero standard deviation, also a negative one,
    standardising a denormalised value gives the value back, so the two
    transforms are inverse to each other in both directions; with the
    constants of the sketch this holds for each of the three features. *)
Theorem standardize_denormalize (mean std : Qc) (y : float) (f : nat) :
  std <> 0%Qc ->
  standardize (Fin mean) (Fin std) (denormalize (Fin mean) (Fin std) y) = y
  /\ denormalize (Fin mean) (Fin std) (standardize (Fin mean) (Fin std) y) = y
  /\ (f < FEATURES -> normalize f (predict f y) = y).
Proof.
  intros Hstd.
  assert (Hinv : forall m s : Qc, s <> 0%Qc ->
            standardize (Fin m) (Fin s) (denormalize (Fin m) (Fin s) y) = y).
  { intros m s Hs. destruct y as [|q]; [reflexivity|].
    unfold denormalize, standardize, fsub, fdiv, fmul, fadd.
    destruct (decide (s = 0%Qc)) as [E|_]; [contradiction|].
    f_equal. field. exact Hs. }
  split; [now apply Hinv|]. split; [now apply denormalize_standardize|].
  intros Hf. unfold normalize, predict.
  destruct f as [|[|[|f]]]; [| | |unfold FEATURES in Hf; lia];
    apply Hinv; apply Qc_pos_nonzero; reflexivity.
Qed.

Lemma standardize_denormalize_witness :
  standardize (dec 10 1) (dec (-2) 1) (denormalize (dec 10 1) (dec (-2) 1) (dec 3 1))
  = dec 3 1.
Proof.
  apply (standardize_denormalize (Q2Qc (10 # 1)) (Q2Qc (-2 # 1)) (dec 3 1) 0).
  discriminate.
Defined.

(** ** The running maximum of the humidity *)

Lemma running_max_step (a : Qc) (h : float) :
  exists a', running_max (Fin a) h = Fin a'
             /\ fmax (Fin a) h = Fin a'
             /\ (a <= a')%Qc
             /\ (forall b, h = Fin b -> (b <= a')%Qc).
Proof.
  unfold running_max, fgt, fmax, flt. destruct h as [|b].
  - exists a. repeat split; [apply Qcle_refl|discriminate].
  - case_bool_decide as Hab.
    + exists b. repeat split; [now apply Qclt_le_weak|].
      intros b' [= <-]. apply Qcle_refl.
    + exists a. repeat split; [apply Qcle_refl|].
      intros b' [= <-]. now apply Qcnot_lt_le.
Qed.

Lemma running_max_fold (hs : list float) :
  forall a, exists q,
    fold_left running_max hs (Fin a) = Fin q
    /\ fold_left fmax hs (Fin a) = Fin q
    /\ (a <= q)%Qc
    /\ (forall h b, In h hs -> h = Fin b -> (b <= q)%Qc).
Proof.
  induction hs as [|h hs IH]; intros a.
  - exists a. repeat split; [apply Qcle_refl|]. intros h b [].
  - destruct (running_max_step a h) as (a' & E1 & E2 & Ha & Hh).
    destruct (IH a') as (q & F1 & F2 & Hq & Hall).
    exists q. cbn [fold_left]. rewrite E1, E2.
    split; [exact F1|]. split; [exact F2|].
    split; [now apply Qcle_trans with a'|].
    intros h' b [<-|Hin] Eb.
    + apply Qcle_trans with a'; [now apply Hh|exact Hq].
    + now apply (Hall h').
Qed.

(** X11.  The humidity maximum handed to the decision engine is the
    maximum of 0 and the 60 denormalised humidity forecasts, NaN forecasts
    being skipped: it is always a number, never negative, and at least
    every forecast humidity that is a number. *)
Theorem forecast_maxH_from_zero (out : nat -> float) :
  let hs := map (forecast out 1) (seq 0 PREDICT_STEPS) in
  maxH (fst (forecast_loop out)) = maximum (Fin 0 :: hs)
  /\ exists q, maxH (fst (forecast_loop out)) = Fin q
               /\ (0 <= q)%Qc
               /\ forall step h, step < PREDICT_STEPS ->
                    forecast out 1 step = Fin h -> (h <= q)%Qc.
Proof.
  intros hs. rewrite forecast_loop_maxH. fold hs.
  destruct (running_max_fold hs 0%Qc) as (q & E1 & E2 & Hq & Hall).
  cbn [maximum]. rewrite E1, E2. split; [reflexivity|].
  exists q. split; [reflexivity|]. split; [exact Hq|].
  intros step h Hstep Eh. apply (Hall (forecast out 1 step)); [|exact Eh].
  unfold hs. apply in_map, in_seq. lia.
Qed.

(** ** More on the decision engine *)

Lemma heat_fires_above (st : Stats) :
  heat_fires st = true <-> above (futureT st) (Q2Qc (35 # 1)).
Proof. unfold heat_fires, dec. apply fgt_above. Qed.

Lemma freeze_fires_below (st : Stats) :
  freeze_fires st = true <-> below (futureT st) (Q2Qc (5 # 1)).
Proof. unfold freeze_fires, dec. apply flt_below. Qed.

Lemma below_weaken (x : float) (c c' : Qc) :
  (c < c')%Qc -> below x c -> below x c'.
Proof.
  intros Hc (d & E & Hd). exists d. split; [exact E|].
  now apply Qclt_trans with c.
Qed.

Lemma below_above_disjoint (x : float) (c c' : Qc) :
  (c <= c')%Qc -> below x c -> above x c' -> False.
Proof.
  intros Hc (d & E & Hd) (d' & E' & Hd'). rewrite E in E'. injection E' as <-.
  apply (Qclt_not_le d c Hd). apply Qcle_trans with c'; [exact Hc|].
  now apply Qclt_le_weak.
Qed.

(** X12.  When the inference succeeds, the heat alert is printed exactly
    when the temperature forecast for the last step is above 35 and the
    freeze alert exactly when it is below 5, whatever the pressure and the
    humidity do; the two are never printed in the same cycle. *)
Theorem heat_and_freeze_rules (model : Model) (s : State) (out : nat -> float) :
  model (model_input s) = Some out ->
  let tr := runForecast model s in
  (In (SerialPrintln heat_line) tr <-> above (forecast out 0 59) (Q2Qc (35 # 1)))
  /\ (In (SerialPrintln freeze_line) tr <-> below (forecast out 0 59) (Q2Qc (5 # 1)))
  /\ ~ (In (SerialPrintln heat_line) tr /\ In (SerialPrintln freeze_line) tr).
Proof.
  intros Hout tr. subst tr.
  rewrite (runForecast_alert model s out heat_line Hout) by discriminate.
  rewrite (runForecast_alert model s out freeze_line Hout) by discriminate.
  rewrite analysis_heat, analysis_freeze, heat_fires_above, freeze_fires_below.
  rewrite forecast_loop_futureT.
  split; [reflexivity|]. split; [reflexivity|].
  intros [Hheat Hfreeze].
  apply (below_above_disjoint (forecast out 0 59) (Q2Qc (5 # 1)) (Q2Qc (35 # 1)));
    [discriminate|exact Hfreeze|exact Hheat].
Qed.

Lemma heat_and_freeze_rules_witness :
  In (SerialPrintln heat_line) (runForecast heat_model ready_state).
Proof.
  apply (proj1 (heat_and_freeze_rules heat_model ready_state heat_output eq_refl)).
  exists (Q2Qc (362 # 10)). split; [float_eq|reflexivity].
Defined.

(** X13.  When the inference succeeds and the storm warning is printed,
    the rain alert is printed as well exactly when the humidity maximum is
    above 85: the storm threshold -0.8 lies below the rain threshold -0.3. *)
Theorem storm_then_rain_iff_humid (model : Model) (s : State) (out : nat -> float) :
  model (model_input s) = Some out ->
  In (SerialPrintln storm_line) (runForecast model s) ->
  In (SerialPrintln rain_line) (runForecast model s)
  <-> above (max_humidity out) (Q2Qc (85 # 1)).
Proof.
  intros Hout.
  rewrite (runForecast_alert model s out storm_line Hout) by discriminate.
  rewrite (runForecast_alert model s out rain_line Hout) by discriminate.
  rewrite analysis_storm, analysis_rain, storm_fires_below,
    rain_fires_below_above, maxH_above_85.
  intros Hstorm. split; [now intros [_ H]|].
  intros H. split; [|exact H].
  apply (below_weaken _ (Q2Qc (-8 # 10))); [reflexivity|exact Hstorm].
Qed.

Lemma storm_then_rain_iff_humid_witness :
  In (SerialPrintln rain_line)
     (runForecast (pressure_step_model (dec (-9) 10)) ready_state)
  <-> above (max_humidity (pressure_step_output (dec (-9) 10))) (Q2Qc (85 # 1)).
Proof.
  apply (storm_then_rain_iff_humid
           (pressure_step_model (dec (-9) 10)) ready_state
           (pressure_step_output (dec (-9) 10)) eq_refl).
  line_decide.
Defined.

Lemma predict_nan (f : nat) : predict f NaN = NaN.
Proof. reflexivity. Qed.

(** X14.  When the inference succeeds but the output pressure of the first
    or of the last step is NaN, [pressureDelta] is NaN: neither the storm
    warning nor the rain alert nor STATUS RISING is printed, and STATUS
    STABLE is. *)
Theorem nan_pressure_reports_stable (model : Model) (s : State) (out : nat -> float) :
  model (model_input s) = Some out ->
  out 2 = NaN \/ out 179 = NaN ->
  let tr := runForecast model s in
  In (SerialPrintln stable_line) tr
  /\ ~ In (SerialPrintln storm_line) tr
  /\ ~ In (SerialPrintln rain_line) tr
  /\ ~ In (SerialPrintln rising_line) tr.
Proof.
  intros Hout Hnan tr. subst tr.
  rewrite (runForecast_alert model s out stable_line Hout) by discriminate.
  rewrite (runForecast_alert model s out storm_line Hout) by discriminate.
  rewrite (runForecast_alert model s out rain_line Hout) by discriminate.
  rewrite (runForecast_alert model s out rising_line Hout) by discriminate.
  rewrite analysis_stable, analysis_storm, analysis_rain, analysis_rising.
  assert (Hdelta : pressureDelta (fst (forecast_loop out)) = NaN).
  { unfold pressureDelta.
    rewrite forecast_loop_currentP, forecast_loop_futureP. unfold forecast.
    change (59 * FEATURES + 2) with 179. change (0 * FEATURES + 2) with 2.
    destruct Hnan as [-> | ->]; rewrite predict_nan; [|reflexivity].
    now destruct (predict 2 (out 179)). }
  unfold storm_fires, rain_fires. rewrite Hdelta. clear.
  unfold fgt, dec. cbn [flt andb]. intuition discriminate.
Qed.

Lemma nan_pressure_reports_stable_witness :
  In (SerialPrintln stable_line) (runForecast nan_model ready_state).
Proof.
  apply (nan_pressure_reports_stable nan_model ready_state nan_output eq_refl).
  left. reflexivity.
Defined.

(** ** The numbers printed by a cycle *)

Lemma printed_cells_app (tr1 tr2 : list event) :
  printed_cells (tr1 ++ tr2) = printed_cells tr1 ++ printed_cells tr2.
Proof. apply flat_map_app. Qed.

Lemma printed_cells_analysis (st : Stats) : printed_cells (analysis st) = [].
Proof.
  apply (calls_none _ line_event); [|apply analysis_kind].
  now intros [].
Qed.

Lemma input_step_cells (s : State) (i : nat) :
  printed_cells (input_step s i)
  = if i =? 0
    then map (fun x => Value x 2) (normalize_row (historyBuffer s !!! bufPos s i))
    else [].
Proof. unfold input_step. now destruct (i =? 0). Qed.

Lemma input_steps_cells_later (s : State) (n : nat) :
  forall a, 0 < a -> printed_cells (flat_map (input_step s) (seq a n)) = [].
Proof.
  induction n as [|n IH]; intros a Ha; [reflexivity|].
  cbn [seq flat_map]. rewrite printed_cells_app, input_step_cells, IH by lia.
  destruct a; [lia|reflexivity].
Qed.

Lemma prepare_input_cells (s : State) :
  printed_cells (prepare_input s)
  = map (fun x => Value x 2) (normalize_row (historyBuffer s !!! bufPos s 0)).
Proof.
  unfold prepare_input.
  replace (seq 0 HISTORY_STEPS) with (0 :: seq 1 29) by reflexivity.
  cbn [flat_map]. rewrite printed_cells_app, input_step_cells.
  rewrite input_steps_cells_later by lia. now rewrite app_nil_r.
Qed.

Lemma forecast_fold_cells (out : nat -> float) (steps : list nat) :
  forall acc,
    printed_cells (snd (fold_left (forecast_step out) steps acc))
    = printed_cells (snd acc)
      ++ flat_map (fun step => if (step + 1) mod 10 =? 0
                               then table_row out step else []) steps.
Proof.
  induction steps as [|step steps IH]; intros acc.
  - cbn [fold_left flat_map]. now rewrite app_nil_r.
  - cbn [fold_left flat_map]. rewrite IH. unfold forecast_step. cbn [snd].
    rewrite !printed_cells_app, <- !app_assoc. f_equal.
    destruct (_ =? 0); reflexivity.
Qed.

Lemma forecast_loop_cells (out : nat -> float) :
  printed_cells (snd (forecast_loop out))
  = flat_map (table_row out) [9; 19; 29; 39; 49; 59].
Proof.
  unfold forecast_loop. rewrite forecast_fold_cells.
  generalize (table_row out). intros row. reflexivity.
Qed.

Lemma runForecast_cells (model : Model) (s : State) :
  printed_cells (runForecast model s)
  = map (fun x => Value x 2) (normalize_row (historyBuffer s !!! bufPos s 0))
    ++ match model (model_input s) with
       | Some out => flat_map (table_row out) [9; 19; 29; 39; 49; 59]
       | None => []
       end.
Proof.
  rewrite runForecast_app, !printed_cells_app, prepare_input_cells.
  change (printed_cells [Call_runForecast s]) with (@nil cell).
  rewrite app_nil_l. f_equal. destruct (model (model_input s)) as [out|]; [|reflexivity].
  rewrite !printed_cells_app, forecast_loop_cells, printed_cells_analysis.
  cbn [printed_cells flat_map app]. now rewrite app_nil_r.
Qed.

(** X15.  The numbers a forecast cycle prints are, with two decimals, the
    three normalised features of the oldest row of the window, and then,
    if the inference succeeded, six table rows: for the minutes 10, 20,
    30, 40, 50 and 60 the denormalised forecast of temperature, humidity
    and pressure at steps 9, 19, 29, 39, 49 and 59, with one decimal.
    That makes 27 numbers in a successful cycle and 3 in a failed one. *)
Theorem runForecast_printed_numbers (model : Model) (s : State) :
  printed_cells (runForecast model s)
  = map (fun x => Value x 2) (normalize_row (historyBuffer s !!! bufPos s 0))
    ++ match model (model_input s) with
       | Some out => flat_map (table_row out) [9; 19; 29; 39; 49; 59]
       | None => []
       end
  /\ length (printed_cells (runForecast model s))
     = (if inference_ok model s then 27 else 3).
Proof.
  split; [apply runForecast_cells|].
  rewrite runForecast_cells, length_app, length_map. unfold inference_ok.
  destruct (model (model_input s)) as [out|]; reflexivity.
Qed.

(** ** setup *)

Lemma setup_halt_trace (b : Boot) (s : State) :
  fst (setup b s) = None -> Forall line_event (snd (setup b s)).
Proof.
  unfold setup. generalize (prefill s). intros s1.
  destruct (negb (bme_begin_0x76 b) && negb (bme_begin_0x77 b)).
  { intros _. repeat constructor. }
  destruct (negb (ModelInit b)); [|discriminate].
  intros _. repeat constructor.
Qed.

(** X16.  [setup] halts exactly when the sensor answers at neither address
    or the model does not load.  The second address is tried: a sensor at
    0x77 alone is enough.  A missing sensor is reported before the model is
    looked at.  A halting [setup] only prints text: it touches no tensor
    and runs no forecast.  Otherwise it ends in the pre-filled state, with
    the first forecast as its last calls. *)
Theorem setup_outcome (b : Boot) (s : State) :
  (fst (setup b s) = None
   <-> (bme_begin_0x76 b = false /\ bme_begin_0x77 b = false) \/ ModelInit b = false)
  /\ (bme_begin_0x76 b = false -> bme_begin_0x77 b = false ->
      printed_lines (snd (setup b s))
      = [nl +:+ "=== Weather Forecaster (MicroTFLite) ===";
         "ERROR: BME280 not found. Check wiring!"])
  /\ (fst (setup b s) = None ->
      set_input_calls (snd (setup b s)) = []
      /\ invocations (snd (setup b s)) = []
      /\ forecast_calls (snd (setup b s)) = [])
  /\ (forall s1, fst (setup b s) = Some s1 ->
      s1 = prefill s
      /\ exists pre, snd (setup b s) = pre ++ runForecast (boot_engine b) s1
                     /\ Forall line_event pre).
Proof.
  split; [|split; [|split]].
  - unfold setup. generalize (prefill s). intros s1.
    destruct (bme_begin_0x76 b), (bme_begin_0x77 b), (ModelInit b);
      cbn [negb andb fst]; intuition discriminate.
  - intros H76 H77. unfold setup. rewrite H76, H77. reflexivity.
  - intros Hhalt. pose proof (setup_halt_trace b s Hhalt) as Hlines.
    split; [|split].
    + apply (calls_none _ line_event); [now intros []|exact Hlines].
    + apply (calls_none _ line_event); [now intros []|exact Hlines].
    + apply (calls_none _ line_event); [now intros []|exact Hlines].
  - intros s1 H. split; [now apply setup_state in H|].
    revert H. unfold setup. generalize (prefill s). intros s2.
    destruct (negb (bme_begin_0x76 b) && negb (bme_begin_0x77 b)); [discriminate|].
    destruct (negb (ModelInit b)); [discriminate|].
    cbn [fst snd]. intros E. apply some_eq in E. subst s2.
    eexists. rewrite !app_assoc. split; [reflexivity|]. repeat constructor.
Qed.

(** ** The earlier sketch *)

Lemma flat_map_flat_map {A B C : Type} (f : B -> list C) (g : A -> list B) (l : list A) :
  flat_map f (flat_map g l) = flat_map (fun a => flat_map f (g a)) l.
Proof.
  induction l as [|a l IH]; [reflexivity|].
  cbn [flat_map]. now rewrite flat_map_app, IH.
Qed.

Lemma earlier_steps :
  Earlier.for_steps PREDICT_STEPS 9 10 PREDICT_STEPS = [9; 19; 29; 39; 49; 59].
Proof. reflexivity. Qed.

Lemma earlier_runForecast_app (model : Model) (s : State) :
  Earlier.runForecast model s
  = prepare_input s
    ++ match model (model_input s) with
       | None => [ModelRunInference false; SerialPrintln "Inference Failed!"]
       | Some out =>
           [ModelRunInference true;
            SerialPrintln "--- FORECAST (MicroTFLite) ---";
            SerialPrintln "Min  Temp   Hum   Pres"]
           ++ flat_map (Earlier.report_step out) [9; 19; 29; 39; 49; 59]
           ++ [SerialPrintln "------------------------------"]
       end.
Proof. unfold Earlier.runForecast. now rewrite earlier_steps. Qed.

Lemma earlier_runForecast_lines (model : Model) (s : State) :
  printed_lines (Earlier.runForecast model s)
  = (if inference_ok model s
     then ["--- FORECAST (MicroTFLite) ---"; "Min  Temp   Hum   Pres";
           "------------------------------"]
     else ["Inference Failed!"]).
Proof.
  rewrite earlier_runForecast_app. unfold inference_ok.
  unfold printed_lines at 1. rewrite flat_map_app. fold (printed_lines (prepare_input s)).
  assert (Hlines : printed_lines (prepare_input s) = []).
  { apply (calls_none _ input_event); [now intros []|apply prepare_input_kind]. }
  rewrite Hlines.
  destruct (model (model_input s)) as [out|]; [|reflexivity].
  generalize (out : nat -> float). clear out. intros out.
  unfold Earlier.report_step. reflexivity.
Qed.

(** X17.  The earlier [runForecast] gives the engine the same input and
    prints the same numbers as the later one, but reads only the 18 output
    slots of the six steps it prints, and prints no alert or status line:
    its text lines are the two headers and the rule, or the failure line. *)
Theorem earlier_runForecast_same_table (model : Model) (s : State) :
  set_input_calls (Earlier.runForecast model s)
  = set_input_calls (runForecast model s)
  /\ invocations (Earlier.runForecast model s) = invocations (runForecast model s)
  /\ printed_cells (Earlier.runForecast model s)
     = printed_cells (runForecast model s)
  /\ get_output_calls (Earlier.runForecast model s)
     = (if inference_ok model s
        then flat_map (fun step => [step * 3; step * 3 + 1; step * 3 + 2])
                      [9; 19; 29; 39; 49; 59]
        else [])
  /\ printed_lines (Earlier.runForecast model s)
     = (if inference_ok model s
        then ["--- FORECAST (MicroTFLite) ---"; "Min  Temp   Hum   Pres";
              "------------------------------"]
        else ["Inference Failed!"]).
Proof.
  rewrite runForecast_set_input_calls, runForecast_invocations,
    runForecast_cells.
  rewrite earlier_runForecast_app. unfold inference_ok.
  rewrite set_input_calls_app, invocations_app, printed_cells_app,
    get_output_calls_app.
  unfold printed_lines at 1. rewrite flat_map_app. fold (printed_lines (prepare_input s)).
  rewrite prepare_input_calls, invocations_input, prepare_input_cells,
    get_output_calls_input.
  assert (Hlines : printed_lines (prepare_input s) = []).
  { apply (calls_none _ input_event); [now intros []|apply prepare_input_kind]. }
  rewrite Hlines.
  destruct (model (model_input s)) as [out|].
  - generalize (out : nat -> float). clear out. intros out.
    unfold Earlier.report_step, table_row, forecast.
    repeat split;
      reflexivity || (cbn [app flat_map set_input_calls]; now rewrite app_nil_r).
  - repeat split;
      reflexivity || (cbn [app flat_map set_input_calls]; now rewrite app_nil_r).
Qed.

(** X18.  In the earlier sketch a missing sensor does not stop [setup]: it
    halts exactly when the model does not load.  The line "BME280
    Initialized." is printed exactly when [bme.begin(0x76)] failed. *)
Theorem earlier_setup_outcome (b : Boot) (s : State) :
  (fst (Earlier.setup b s) = None <-> ModelInit b = false)
  /\ (In "BME280 Initialized." (printed_lines (snd (Earlier.setup b s)))
      <-> bme_begin_0x76 b = false)
  /\ (forall s1, fst (Earlier.setup b s) = Some s1 -> s1 = prefill s).
Proof.
  unfold Earlier.setup. generalize (prefill s). intros s2.
  assert (Hrun : forall model, ~ In "BME280 Initialized."
                                 (printed_lines (Earlier.runForecast model s2))).
  { intros model.
    rewrite earlier_runForecast_lines.
    destruct (inference_ok model s2); cbn [In]; intuition discriminate. }
  destruct (bme_begin_0x76 b), (ModelInit b); cbn [negb fst snd app].
  all: split; [intuition discriminate|].
  all: split; [|intros s1 E; try discriminate E; symmetry; exact (some_eq _ _ E)].
  all: unfold printed_lines; rewrite ?flat_map_app; cbn [flat_map app In];
    fold (printed_lines (Earlier.runForecast (boot_engine b) s2));
    rewrite ?in_app_iff; cbn [In];
    pose proof (Hrun (boot_engine b)); intuition discriminate.
Qed.

(** ** Passes with a failed temperature read *)

Lemma loop_nan_fields (k : Tick) (s : State) :
  isnan (readTemperature k) = true ->
  historyBuffer (fst (loop k s)) = historyBuffer s
  /\ bufferHead (fst (loop k s)) = bufferHead s
  /\ bufferFilled (fst (loop k s)) = bufferFilled s
  /\ snd (loop k s) = [].
Proof.
  intros Ht. unfold loop. rewrite Ht. now destruct (interval_elapsed k s).
Qed.

(** X19.  However many passes of [loop] read a NaN temperature, and
    whenever they come, the history buffer, its head and its filled flag
    stay as they were, so does the window, and no call is made: nothing is
    printed and the engine is not touched. *)
Theorem nan_temperature_passes_change_nothing (ks : list Tick) (s : State) :
  Forall (fun k => isnan (readTemperature k) = true) ks ->
  historyBuffer (fst (loops ks s)) = historyBuffer s
  /\ bufferHead (fst (loops ks s)) = bufferHead s
  /\ bufferFilled (fst (loops ks s)) = bufferFilled s
  /\ window (fst (loops ks s)) = window s
  /\ snd (loops ks s) = [].
Proof.
  intros Hall.
  assert (H : historyBuffer (fst (loops ks s)) = historyBuffer s
              /\ bufferHead (fst (loops ks s)) = bufferHead s
              /\ bufferFilled (fst (loops ks s)) = bufferFilled s
              /\ snd (loops ks s) = []).
  { revert s. induction Hall as [|k ks Hk _ IH]; intros s; [now repeat split|].
    rewrite loops_cons. cbn [fst snd].
    destruct (loop_nan_fields k s Hk) as (Hb & Hh & Hf & Htr).
    destruct (IH (fst (loop k s))) as (Hb' & Hh' & Hf' & Htr').
    rewrite Hb', Hh', Hf', Htr', Htr, Hb, Hh, Hf. now repeat split. }
  destruct H as (Hb & Hh & Hf & Htr).
  repeat split; try assumption.
  unfold window, bufPos, readIdx. now rewrite Hb, Hh, Hf.
Qed.

Lemma nan_temperature_passes_change_nothing_witness :
  snd (loops [mkTick 60001 60001 NaN (dec 700 10) (dec 101600 1) flat_model;
              mkTick 120002 120002 NaN (dec 700 10) (dec 101600 1) flat_model]
             ready_state) = [].
Proof.
  apply (nan_temperature_passes_change_nothing
           [mkTick 60001 60001 NaN (dec 700 10) (dec 101600 1) flat_model;
            mkTick 120002 120002 NaN (dec 700 10) (dec 101600 1) flat_model]
           ready_state).
  repeat constructor.
Defined.
